(** * job-tracker: the storage layer (models.py) and the command layer (cli.py)

    A shallow embedding of the two source files and the properties of the
    commands [add], [list], [update], [remove], [detail], [export], [search].

    Conventions of the embedding.
    - A Python [str] is a Rocq [string]: the UTF-8 bytes of the text.  Equality,
      concatenation, the substring test [kw in f] and the CSV special
      characters (all ASCII) act on the bytes as they act on the code points.
    - The built-ins [str.lower] and [int] are not code of this repository; the
      command layer is stated over any [lower] and any [int] (Section
      variables), and instantiated with their ASCII restrictions for examples.
    - The SQLite file jobs.db is the component [disk] of the state: [None]
      while the table jobs does not exist, [Some rows] afterwards, the rows
      in retrieval order (rowid order).
    - A SQLAlchemy session is a unit of work: changes are recorded as pending
      and reach the disk at [commit]; leaving the [with] block drops whatever
      is still pending.
    - [console.print] is modelled by what it is given, a marked-up line or
      a table; how rich renders it is outside the model.
    - The file system is a finite map from path to content, for the files
      other than jobs.db; opening a path for writing is taken to succeed,
      and a path is the text given on the command line. *)

From Stdlib Require Import ZArith String Ascii List Lia Bool DecimalString.
From stdpp Require Import base option list gmap strings.

Local Open Scope string_scope.
Local Open Scope list_scope.

(** ** Python built-ins used by the source *)

Module py.

(** Truthiness of a [str]: the empty string is falsy. *)
Definition truthy (s : string) : bool := negb (String.eqb s "").

(** [s or None] for a [str]. *)
Definition or_none (s : string) : option string :=
  if truthy s then Some s else None.

(** [o or d] for an optional [str] [o]: [None] and the empty string both
    give [d]. *)
Definition or_else (o : option string) (d : string) : string :=
  match o with
  | Some s => if truthy s then s else d
  | None => d
  end.

(** [str(n)] for an [int]. *)
Definition str (n : Z) : string := NilZero.string_of_int (Z.to_int n).

(** [k in f] for two [str]: [k] occurs as a contiguous substring of [f]. *)
Fixpoint contains (k f : string) : bool :=
  String.prefix k f ||
  match f with
  | EmptyString => false
  | String _ f' => contains k f'
  end.

(** [s.split(sep)] for a one-character separator. *)
Fixpoint split (sep : ascii) (s : string) : list string :=
  match s with
  | EmptyString => [""]
  | String c s' =>
      if Ascii.eqb c sep then "" :: split sep s'
      else match split sep s' with
           | h :: t => String c h :: t
           | [] => [String c ""]
           end
  end.

(** [sep.join(l)]. *)
Fixpoint join (sep : string) (l : list string) : string :=
  match l with
  | [] => ""
  | [x] => x
  | x :: l' => x +:+ sep +:+ join sep l'
  end.

(** [sorted(l)] for strings: code-point order, which on UTF-8 text is the
    byte order of [String.leb]. *)
Fixpoint insert_sorted (x : string) (l : list string) : list string :=
  match l with
  | [] => [x]
  | y :: l' => if String.leb x y then x :: l else y :: insert_sorted x l'
  end.

Definition sorted (l : list string) : list string :=
  foldr insert_sorted [] l.

(** [x in valid] for a set of strings. *)
Definition mem (x : string) (l : list string) : bool :=
  existsb (String.eqb x) l.

(** [s.zfill(n)]-style left padding with zeros, as done by [%0nd] on a
    non-negative number. *)
Definition zero_pad (n : nat) (s : string) : string :=
  string_of_list_ascii (repeat "0"%char (n - String.length s)) +:+ s.

End py.

(** ** datetime.date *)

Module datetime.

Record date := Date { year : Z; month : Z; day : Z }.

Definition is_leap (y : Z) : bool :=
  ((y mod 4 =? 0) && (negb (y mod 100 =? 0) || (y mod 400 =? 0)))%Z.

Definition days_in_month (y m : Z) : Z :=
  if (m =? 2)%Z then (if is_leap y then 29 else 28)%Z
  else if ((m =? 4) || (m =? 6) || (m =? 9) || (m =? 11))%Z then 30%Z
  else 31%Z.

(** The checks of the constructor [date(y, m, d)]; [None] is its refusal
    (ValueError; for a number beyond a C int, OverflowError, which the model
    does not tell apart). *)
Definition make (y m d : Z) : option date :=
  if ((1 <=? y) && (y <=? 9999) && (1 <=? m) && (m <=? 12)
      && (1 <=? d) && (d <=? days_in_month y m))%Z
  then Some (Date y m d) else None.

(** [d.isoformat()]: [%04d-%02d-%02d]. *)
Definition isoformat (d : date) : string :=
  py.zero_pad 4 (py.str (year d)) +:+ "-" +:+
  py.zero_pad 2 (py.str (month d)) +:+ "-" +:+
  py.zero_pad 2 (py.str (day d)).

End datetime.

(** ** The table row: class Job of models.py *)

Module Job.

Record t := Row {
  id : Z;                          (* Column(Integer, primary_key=True) *)
  title : string;                  (* Column(String, nullable=False) *)
  company : string;                (* Column(String, nullable=False) *)
  link : option string;            (* Column(String) *)
  status : string;                 (* Column(String, default=..., nullable=False) *)
  deadline : option datetime.date; (* Column(Date) *)
  notes : option string            (* Column(String) *)
}.

(** The column default of [status]. *)
Definition status_default : string := "interested".

(** The assignment [j.status = s]. *)
Definition set_status (s : string) (j : t) : t :=
  Row (id j) (title j) (company j) (link j) s (deadline j) (notes j).

(** The constructor call [Job(title=..., ...)]: a row waiting for its
    primary key.  [status] is [None] when the keyword is left out, and the
    insert then takes the column default. *)
Definition new (title company : string) (link : option string)
    (deadline : option datetime.date) (notes : option string)
    (status : option string) : Z -> t :=
  fun id =>
    Row id title company link (default status_default status) deadline notes.

End Job.

(** ** Program state, exceptions and the command monad *)

(** The exceptions the two files can raise: [typer.Exit(code)], the
    ValueError of a malformed date, the OperationalError of a statement
    on a table that does not exist, and the OverflowError of sqlite3 for an
    integer that an SQLite INTEGER cannot hold. *)
Inductive Exn :=
| Exit (code : Z)
| ValueError
| OperationalError
| OverflowError.

Module rich.

(** [Table(title=..., show_lines=True)] with its calls to [add_column]
    and [add_row]. *)
Record Table := MkTable {
  title : string;
  show_lines : bool;
  columns : list string;
  rows : list (list string)
}.

Definition new (title : string) (show_lines : bool) : Table :=
  MkTable title show_lines [] [].

Definition add_column (t : Table) (c : string) : Table :=
  MkTable (title t) (show_lines t) (columns t ++ [c]) (rows t).

Definition add_row (t : Table) (r : list string) : Table :=
  MkTable (title t) (show_lines t) (columns t) (rows t ++ [r]).

(** What [console.print] received: a marked-up line or a table. *)
Inductive Printed :=
| Text (s : string)
| Grid (t : Table).

End rich.

(** A change recorded in the session and not yet flushed. *)
Inductive Pending :=
| Insert (mk : Z -> Job.t)
| SetStatus (id : Z) (s : string)
| Delete (id : Z).

Record State := MkState {
  disk : option (list Job.t);
  files : gmap string string;
  console : list rich.Printed;
  pending : list Pending
}.

Definition set_disk (d : option (list Job.t)) (s : State) : State :=
  MkState d (files s) (console s) (pending s).
Definition set_files (f : gmap string string) (s : State) : State :=
  MkState (disk s) f (console s) (pending s).
Definition set_console (c : list rich.Printed) (s : State) : State :=
  MkState (disk s) (files s) c (pending s).
Definition set_pending (p : list Pending) (s : State) : State :=
  MkState (disk s) (files s) (console s) p.

Inductive Res (A : Type) :=
| Ret (a : A)
| Raise (e : Exn).
Arguments Ret {A} a.
Arguments Raise {A} e.

Definition M (A : Type) : Type := State -> State * Res A.

#[global] Instance M_ret : MRet M := fun A a s => (s, Ret a).

#[global] Instance M_bind : MBind M := fun A B f m s =>
  match m s with
  | (s', Ret a) => f a s'
  | (s', Raise e) => (s', Raise e)
  end.

Definition raise {A} (e : Exn) : M A := fun s => (s, Raise e).

(** The call of a function that touches no state: its value or its
    exception. *)
Definition call {A} (r : Res A) : M A := fun s => (s, r).

(** The exit status of the process: 0 on return, the code of [typer.Exit],
    1 for an exception nobody catches. *)
Definition exit_code {A} (r : Res A) : Z :=
  match r with
  | Ret _ => 0
  | Raise (Exit c) => c
  | Raise _ => 1
  end%Z.

(** [console.print(x)]. *)
Definition print (p : rich.Printed) : M unit :=
  fun s => (set_console (console s ++ [p]) s, Ret tt).

(** ** models.py: the engine, the session factory and init_db *)

Module models.

(** [Base.metadata.create_all(engine)]: creates the table when it is
    missing, leaves an existing one alone. *)
Definition init_db : M unit :=
  fun s => (set_disk (Some (default [] (disk s))) s, Ret tt).

(** The integers an SQLite INTEGER holds: signed, 64 bits. *)
Definition int64 (i : Z) : bool :=
  ((- 2 ^ 63 <=? i) && (i <? 2 ^ 63))%Z.

(** The key SQLite gives an inserted row of a table declared with an
    INTEGER PRIMARY KEY: one more than the largest key present, 1 in an
    empty table. *)
Definition next_id (rows : list Job.t) : Z :=
  match Job.id <$> rows with
  | [] => 1
  | i :: l => 1 + foldr Z.max i l
  end%Z.

(** The statement each pending change flushes to. *)
Definition apply (rows : list Job.t) (p : Pending) : list Job.t :=
  match p with
  | Insert mk => rows ++ [mk (next_id rows)]
  | SetStatus i st =>
      (fun r => if (Job.id r =? i)%Z then Job.set_status st r else r) <$> rows
  | Delete i => List.filter (fun r => negb (Job.id r =? i)%Z) rows
  end.

(** The rows the flush of [ps] inserts, as stored. *)
Fixpoint inserted (rows : list Job.t) (ps : list Pending) : list Job.t :=
  match ps with
  | [] => []
  | p :: ps' =>
      match p with
      | Insert mk => [mk (next_id rows)]
      | _ => []
      end ++ inserted (apply rows p) ps'
  end.

Module Session.

(** [s.get(Job, id)]: the row with that primary key, if any.  The
    statement fails on a missing table before its parameter is bound.  A
    key of the table is a signed 64-bit integer, so an id outside that range
    is the key of no row: binding it raises OverflowError. *)
Definition get (i : Z) : M (option Job.t) :=
  fun s =>
    match disk s with
    | None => (s, Raise OperationalError)
    | Some rows =>
        match List.find (fun r => (Job.id r =? i)%Z) rows with
        | Some j => (s, Ret (Some j))
        | None => if int64 i then (s, Ret None) else (s, Raise OverflowError)
        end
    end.

(** [s.execute(select(Job)).scalars().all()]. *)
Definition select_all : M (list Job.t) :=
  fun s =>
    match disk s with
    | None => (s, Raise OperationalError)
    | Some rows => (s, Ret rows)
    end.

(** [s.add(j)]. *)
Definition add (mk : Z -> Job.t) : M unit :=
  fun s => (set_pending (pending s ++ [Insert mk]) s, Ret tt).

(** [j.status = st] on an object loaded by this session. *)
Definition set_status (j : Job.t) (st : string) : M unit :=
  fun s => (set_pending (pending s ++ [SetStatus (Job.id j) st]) s, Ret tt).

(** [s.delete(j)]. *)
Definition delete (j : Job.t) : M unit :=
  fun s => (set_pending (pending s ++ [Delete (Job.id j)]) s, Ret tt).

(** [s.commit()]: flushes the pending changes in order and makes them
    durable.  The result lists the rows the flush inserted: it is how
    the attributes of a new object, its [id] included, read after the
    commit. *)
Definition commit : M (list Job.t) :=
  fun s =>
    match pending s, disk s with
    | [], _ => (s, Ret [])
    | _ :: _, None => (s, Raise OperationalError)
    | ps, Some rows =>
        (set_pending [] (set_disk (Some (foldl apply rows ps)) s),
         Ret (inserted rows ps))
    end.

End Session.

(** [with SessionLocal() as s: body]: a new session, closed on every way
    out of the block; what was not committed is dropped. *)
Definition SessionLocal {A} (body : M A) : M A :=
  fun s =>
    let '(s', r) := body (set_pending [] s) in
    (set_pending [] s', r).

End models.

(** ** csv.writer and the file written by export *)

Module csv.

Definition dquote : ascii := ascii_of_nat 34.
Definition CR : ascii := ascii_of_nat 13.
Definition LF : ascii := ascii_of_nat 10.

(** The default dialect quotes a field that holds the delimiter, the
    quote character or a character of the line terminator. *)
Definition special (c : ascii) : bool :=
  Ascii.eqb c ","%char || Ascii.eqb c dquote || Ascii.eqb c CR || Ascii.eqb c LF.

Definition needs_quotes (f : string) : bool :=
  existsb special (list_ascii_of_string f).

(** Inside quotes every quote character is written twice. *)
Fixpoint escape (f : string) : string :=
  match f with
  | EmptyString => EmptyString
  | String c f' =>
      if Ascii.eqb c dquote then String dquote (String dquote (escape f'))
      else String c (escape f')
  end.

Definition field (f : string) : string :=
  if needs_quotes f then String dquote (escape f +:+ String dquote "")
  else f.

Definition lineterminator : string := String CR (String LF "").

(** [writer.writerow(fields)]: the text appended to the file.  A row made
    of one empty field is written as a pair of quotes. *)
Definition writerow (fields : list string) : string :=
  match fields with
  | [EmptyString] => String dquote (String dquote "")
  | _ => py.join "," (field <$> fields)
  end +:+ lineterminator.

(** *** csv.reader

    The reader of the same dialect, as the machine it is: one step per
    character of the file, a record closed at CR, LF or CR LF outside
    quotes.  It is what reads an export back. *)

Inductive Mode :=
| StartRecord
| StartField
| InField
| InQuoted
| QuoteInQuoted
| AfterCR.

Record Reader := MkReader {
  mode : Mode;
  cur : string;                 (* the field being read *)
  row : list string;            (* the fields of the record being read *)
  out : list (list string)      (* the records read *)
}.

Definition newline (c : ascii) : bool := Ascii.eqb c CR || Ascii.eqb c LF.

Definition after_newline (c : ascii) : Mode :=
  if Ascii.eqb c CR then AfterCR else StartRecord.

Definition add_char (m : Mode) (c : ascii) (r : Reader) : Reader :=
  MkReader m (cur r +:+ String c "") (row r) (out r).

Definition save_field (r : Reader) : Reader :=
  MkReader StartField "" (row r ++ [cur r]) (out r).

Definition end_record (c : ascii) (r : Reader) : Reader :=
  MkReader (after_newline c) "" [] (out r ++ [row r ++ [cur r]]).

Definition step_field (r : Reader) (c : ascii) : Reader :=
  if newline c then end_record c r
  else if Ascii.eqb c dquote then MkReader InQuoted (cur r) (row r) (out r)
  else if Ascii.eqb c "," then save_field r
  else add_char InField c r.

(** At the start of a record a line end is an empty line: the record with
    no field. *)
Definition step_record (r : Reader) (c : ascii) : Reader :=
  if newline c then MkReader (after_newline c) "" [] (out r ++ [[]])
  else step_field r c.

Definition step (r : Reader) (c : ascii) : Reader :=
  match mode r with
  | StartRecord => step_record r c
  | AfterCR =>
      if Ascii.eqb c LF then MkReader StartRecord "" [] (out r)
      else step_record r c
  | StartField => step_field r c
  | InField =>
      if newline c then end_record c r
      else if Ascii.eqb c "," then save_field r
      else add_char InField c r
  | InQuoted =>
      if Ascii.eqb c dquote then MkReader QuoteInQuoted (cur r) (row r) (out r)
      else add_char InQuoted c r
  | QuoteInQuoted =>
      if Ascii.eqb c dquote then add_char InQuoted c r
      else if Ascii.eqb c "," then save_field r
      else if newline c then end_record c r
      else add_char InField c r
  end.

Fixpoint feed (r : Reader) (text : string) : Reader :=
  match text with
  | EmptyString => r
  | String c text' => feed (step r c) text'
  end.

(** At the end of the file a record still open is closed. *)
Definition finish (r : Reader) : list (list string) :=
  match mode r with
  | StartRecord | AfterCR => out r
  | _ => out r ++ [row r ++ [cur r]]
  end.

Definition reader (text : string) : list (list string) :=
  finish (feed (MkReader StartRecord "" [] []) text).

End csv.

(** [Path(filename).open("w", newline="", encoding="utf-8")] with the text
    written until the block ends: the file holds exactly that text.  The
    path is used as given ([filename] in pathlib's normal form). *)
Definition write_file (path content : string) : M unit :=
  fun s => (set_files (<[path := content]> (files s)) s, Ret tt).

(** ** cli.py: the commands *)

Module typer.

(** A parameter declared [p: str = typer.Option(dflt, ...)] (or with a
    plain default): the value given on the command line, else [dflt]. *)
Definition Option (dflt : string) (given : option string) : string :=
  default dflt given.

End typer.

Module cli.

(** The placeholder shown for an absent value, byte for byte as the
    source file has it. *)
Definition dash : string := "â€”".

(** The local [valid] of [update]. *)
Definition valid : list string :=
  ["interested"; "applied"; "interview"; "offer"; "rejected"].

(** The cells of one row of the tables of [list] and [search]. *)
Definition cells (r : Job.t) : list string :=
  [ py.str (Job.id r); Job.title r; Job.company r; Job.status r;
    match Job.deadline r with
    | Some d => datetime.isoformat d
    | None => dash
    end;
    py.or_else (Job.link r) dash ].

(** The fields of one data row of the export. *)
Definition csv_fields (r : Job.t) : list string :=
  [ py.str (Job.id r); Job.title r; Job.company r; Job.status r;
    match Job.deadline r with
    | Some d => datetime.isoformat d
    | None => ""
    end;
    py.or_else (Job.link r) "";
    py.or_else (Job.notes r) "" ].

Definition csv_header : list string :=
  ["id"; "title"; "company"; "status"; "deadline"; "link"; "notes"].

Section builtins.

(** [str.lower] and [int] of the Python in use. *)
Variable lower : string -> string.
Variable int : string -> option Z.

(** A pure function: it returns, or raises ValueError (a part that is
    not a number, not three parts, or no such day). *)
Definition _parse_date (s : string) : Res (option datetime.date) :=
  if negb (py.truthy s) then Ret None
  else
    match int <$> py.split "-" s with
    | [Some y; Some m; Some d] =>
        match datetime.make y m d with
        | Some dt => Ret (Some dt)
        | None => Raise ValueError
        end
    | _ => Raise ValueError
    end.

Definition init : M unit :=
  models.init_db;;
  print (rich.Text "[green]Database ready[/green]").

Definition add (title company : string)
    (link deadline notes status : option string) : M unit :=
  let link := typer.Option "" link in
  let deadline := typer.Option "" deadline in
  let notes := typer.Option "" notes in
  let status := typer.Option "interested" status in
  models.init_db;;
  models.SessionLocal (
    d ← call (_parse_date deadline);
    let j := Job.new title company (py.or_none link) d
               (py.or_none notes) (Some status) in
    models.Session.add j;;
    js ← models.Session.commit;
    match js with
    | [j] =>
        print (rich.Text ("[green]Added[/green] " +:+ Job.title j +:+ " @ "
                           +:+ Job.company j +:+ " (id="
                           +:+ py.str (Job.id j) +:+ ")"))
    | _ => mret tt
    end).

Definition list (status : option string) : M unit :=
  let status := typer.Option "" status in
  models.init_db;;
  models.SessionLocal (
    rows ← models.Session.select_all;
    let rows :=
      if py.truthy status
      then List.filter (fun r => String.eqb (Job.status r) status) rows
      else rows in
    let table := rich.new "Jobs" true in
    let table :=
      foldl rich.add_column table
        ["id"; "title"; "company"; "status"; "deadline"; "link"] in
    let table := foldl (fun t r => rich.add_row t (cells r)) table rows in
    print (rich.Grid table)).

Definition update (id : Z) (status : string) : M unit :=
  if negb (py.mem status valid) then
    print (rich.Text ("[red]Invalid status.[/red] Use one of: "
                       +:+ py.join ", " (py.sorted valid)));;
    raise (Exit 1)
  else
    models.SessionLocal (
      j ← models.Session.get id;
      match j with
      | None => print (rich.Text "[red]Not found[/red]");; raise (Exit 1)
      | Some j =>
          models.Session.set_status j status;;
          models.Session.commit;;
          print (rich.Text ("[yellow]Updated[/yellow] " +:+ py.str id
                             +:+ " -> " +:+ status))
      end).

Definition remove (id : Z) : M unit :=
  models.SessionLocal (
    j ← models.Session.get id;
    match j with
    | None => print (rich.Text "[red]Not found[/red]");; raise (Exit 1)
    | Some j =>
        models.Session.delete j;;
        models.Session.commit;;
        print (rich.Text ("[red]Removed[/red] " +:+ py.str id))
    end).

Definition detail (id : Z) : M unit :=
  models.SessionLocal (
    j ← models.Session.get id;
    match j with
    | None => print (rich.Text "[red]Job not found[/red]");; raise (Exit 1)
    | Some j =>
        let table :=
          rich.new ("Job " +:+ py.str (Job.id j) +:+ " Details") true in
        let table := rich.add_column table "Field" in
        let table := rich.add_column table "Value" in
        let table := rich.add_row table ["ID"; py.str (Job.id j)] in
        let table := rich.add_row table ["Title"; Job.title j] in
        let table := rich.add_row table ["Company"; Job.company j] in
        let table := rich.add_row table ["Status"; Job.status j] in
        let table :=
          rich.add_row table
            ["Deadline";
             match Job.deadline j with
             | Some d => datetime.isoformat d
             | None => dash
             end] in
        let table := rich.add_row table ["Link"; py.or_else (Job.link j) dash] in
        let table := rich.add_row table ["Notes"; py.or_else (Job.notes j) dash] in
        print (rich.Grid table)
    end).

Definition export (filename : option string) : M unit :=
  let filename := typer.Option "jobs_export.csv" filename in
  models.init_db;;
  models.SessionLocal (
    rows ← models.Session.select_all;
    match rows with
    | [] => print (rich.Text "[yellow]No jobs to export[/yellow]")
    | _ =>
        let filepath := filename in
        let f := csv.writerow csv_header in
        let f := foldl (fun f r => f +:+ csv.writerow (csv_fields r)) f rows in
        write_file filepath f;;
        print (rich.Text ("[green]Exported "
                           +:+ py.str (Z.of_nat (length rows))
                           +:+ " jobs to " +:+ filepath +:+ "[/green]"))
    end).

(** The local function [match] of [search], for the lowered keyword. *)
Definition match_ (kw : string) (r : Job.t) : bool :=
  let fields :=
    [ lower (py.or_else (Some (Job.title r)) "");
      lower (py.or_else (Some (Job.company r)) "");
      lower (py.or_else (Job.notes r) "") ] in
  existsb (fun f => py.contains kw f) fields.

Definition search (keyword : string) : M unit :=
  models.init_db;;
  let kw := lower keyword in
  models.SessionLocal (
    rows ← models.Session.select_all;
    let results := List.filter (match_ kw) rows in
    match results with
    | [] =>
        print (rich.Text ("[yellow]No jobs found for '" +:+ keyword
                           +:+ "'[/yellow]"))
    | _ =>
        let table :=
          rich.new ("Search results for '" +:+ keyword +:+ "'") true in
        let table :=
          foldl rich.add_column table
            ["id"; "title"; "company"; "status"; "deadline"; "link"] in
        let table := foldl (fun t r => rich.add_row t (cells r)) table results in
        print (rich.Grid table)
    end).

End builtins.

End cli.

(** ** The built-ins on ASCII text, to run the commands on examples *)

Module ascii_py.

(** [str.lower] on ASCII text: A..Z become a..z. *)
Definition lower_char (c : ascii) : ascii :=
  let n := nat_of_ascii c in
  if (65 <=? n)%nat && (n <=? 90)%nat then ascii_of_nat (n + 32) else c.

Fixpoint lower (s : string) : string :=
  match s with
  | EmptyString => EmptyString
  | String c s' => String (lower_char c) (lower s')
  end.

Definition digit (c : ascii) : option Z :=
  let n := nat_of_ascii c in
  if (48 <=? n)%nat && (n <=? 57)%nat then Some (Z.of_nat (n - 48)) else None.

Fixpoint digits (acc : Z) (s : string) : option Z :=
  match s with
  | EmptyString => Some acc
  | String c s' =>
      match digit c with
      | Some d => digits (10 * acc + d)%Z s'
      | None => None
      end
  end.

(** [int] on a plain decimal literal: ASCII digits after an optional
    sign.  ([int] also accepts surrounding blanks, single underscores
    between digits and non-ASCII digits; this instance rejects them.) *)
Definition int (s : string) : option Z :=
  match s with
  | EmptyString => None
  | String "-" (String _ _ as s') => Z.opp <$> digits 0 s'
  | String "+" (String _ _ as s') => digits 0 s'
  | _ => digits 0 s
  end.

End ascii_py.

(** The state of a first run: no table, no file, nothing printed. *)
Definition fresh : State := MkState None ∅ [] [].

(** A store that holds the table with [rows]. *)
Definition stored (rows : list Job.t) : State := MkState (Some rows) ∅ [] [].

(** * Vocabulary of the specification *)

(** The two error kinds a command can signal. *)
Inductive Error :=
| NotFound
| InvalidInput.

Definition msg_not_found : rich.Printed := rich.Text "[red]Not found[/red]".
Definition msg_job_not_found : rich.Printed := rich.Text "[red]Job not found[/red]".
Definition msg_invalid_status : rich.Printed :=
  rich.Text "[red]Invalid status.[/red] Use one of: applied, interested, interview, offer, rejected".

(** The lines by which the commands signal each kind. *)
Definition signals (e : Error) (p : rich.Printed) : Prop :=
  match e with
  | NotFound => p = msg_not_found \/ p = msg_job_not_found
  | InvalidInput => p = msg_invalid_status
  end.

(** Table and files are the same in both states. *)
Definition same_store (s s' : State) : Prop :=
  disk s' = disk s /\ files s' = files s.

(** Run from [s], the command signals [e]: it prints the line of [e] and
    nothing else, changes neither the table nor the files, and the process
    ends with status 1. *)
Definition fails_with (e : Error) (c : M unit) (s : State) : Prop :=
  exists s' r p,
    c s = (s', r) /\ exit_code r = 1%Z /\ signals e p /\
    console s' = console s ++ [p] /\ same_store s s'.

(** Run from [s], the command returns (exit status 0) in state [s']. *)
Definition succeeds (c : M unit) (s s' : State) : Prop :=
  c s = (s', Ret tt).

(** [r'] is [r] with at most the status changed. *)
Definition same_but_status (r r' : Job.t) : Prop :=
  Job.id r' = Job.id r /\ Job.title r' = Job.title r /\
  Job.company r' = Job.company r /\ Job.link r' = Job.link r /\
  Job.deadline r' = Job.deadline r /\ Job.notes r' = Job.notes r.

(** The table after [update i st] found its row. *)
Definition with_status (i : Z) (st : string) (rows : list Job.t) : list Job.t :=
  (fun r => if (Job.id r =? i)%Z then Job.set_status st r else r) <$> rows.

(** The row [add] builds from its arguments, before the key is known. *)
Definition added_row (title company : string)
    (link : option string) (d : option datetime.date)
    (notes status : option string) : Z -> Job.t :=
  Job.new title company (py.or_none (typer.Option "" link)) d
    (py.or_none (typer.Option "" notes))
    (Some (typer.Option "interested" status)).

(** [shown] is [rows] restricted to the rows that satisfy [P]: nothing
    else, nothing missing, order and repetitions kept. *)
Inductive restricted {A : Type} (P : A -> Prop) : list A -> list A -> Prop :=
| restricted_nil : restricted P [] []
| restricted_keep x rows shown :
    P x -> restricted P rows shown -> restricted P (x :: rows) (x :: shown)
| restricted_drop x rows shown :
    ~ P x -> restricted P rows shown -> restricted P (x :: rows) shown.

(** The table that [list] and [search] print for the rows [shown]. *)
Definition listing (title : string) (shown : list Job.t) : rich.Table :=
  rich.MkTable title true
    ["id"; "title"; "company"; "status"; "deadline"; "link"]
    (cli.cells <$> shown).

(** [k] occurs in [f]. *)
Definition substring (k f : string) : Prop :=
  exists a b, f = a +:+ k +:+ b.

(** The row matches the keyword: the lowered keyword occurs in the lowered
    title, company or notes, absent notes counting as the empty string. *)
Definition matches (lower : string -> string) (keyword : string) (r : Job.t) : Prop :=
  substring (lower keyword) (lower (Job.title r)) \/
  substring (lower keyword) (lower (Job.company r)) \/
  substring (lower keyword) (lower (default "" (Job.notes r))).

(** What [search] prints for the rows [results]. *)
Definition search_report (keyword : string) (results : list Job.t) : rich.Printed :=
  match results with
  | [] => rich.Text ("[yellow]No jobs found for '" +:+ keyword +:+ "'[/yellow]")
  | _ => rich.Grid (listing ("Search results for '" +:+ keyword +:+ "'") results)
  end.

(** The number of occurrences of a character, and the number of lines of a
    text: its line feeds. *)
Fixpoint count_char (c : ascii) (s : string) : nat :=
  match s with
  | EmptyString => 0
  | String c' s' => (if Ascii.eqb c' c then 1 else 0) + count_char c s'
  end.

Definition lines (text : string) : nat := count_char csv.LF text.

(** The line feeds inside the text columns of a row. *)
Definition line_feeds (r : Job.t) : nat :=
  lines (Job.title r) + lines (Job.company r) + lines (Job.status r)
  + lines (default "" (Job.link r)) + lines (default "" (Job.notes r)).

(** The values of one exported record: the stored ones, a date in ISO
    form, the empty string for an absent deadline, link or note. *)
Definition exported_values (r : Job.t) : list string :=
  [ py.str (Job.id r); Job.title r; Job.company r; Job.status r;
    from_option datetime.isoformat "" (Job.deadline r);
    default "" (Job.link r); default "" (Job.notes r) ].

(** The records of the export, header first, and the text of the file. *)
Definition export_records (rows : list Job.t) : list (list string) :=
  ["id"; "title"; "company"; "status"; "deadline"; "link"; "notes"]
  :: (exported_values <$> rows).

Definition export_text (rows : list Job.t) : string :=
  String.concat "" (csv.writerow <$> export_records rows).

(** The reader after a written field, before the character that ends it. *)
Definition after_field (f : string) (row : list string)
    (out : list (list string)) : csv.Reader :=
  if csv.needs_quotes f then csv.MkReader csv.QuoteInQuoted f row out
  else match f with
       | EmptyString => csv.MkReader csv.StartField "" row out
       | _ => csv.MkReader csv.InField f row out
       end.

(** A date that the constructor of [datetime.date] accepts; the deadlines
    that [add] stores are such dates. *)
Definition valid_date (d : datetime.date) : Prop :=
  datetime.make (datetime.year d) (datetime.month d) (datetime.day d) = Some d.

Definition is_digit (c : ascii) : bool :=
  (48 <=? nat_of_ascii c)%nat && (nat_of_ascii c <=? 57)%nat.

(** [n] digits and nothing else. *)
Definition digits_only (n : nat) (t : string) : bool :=
  (String.length t =? n)%nat && forallb is_digit (list_ascii_of_string t).

(** The shape YYYY-MM-DD. *)
Definition iso_shape (t : string) : bool :=
  match list_ascii_of_string t with
  | [y1; y2; y3; y4; h1; m1; m2; h2; d1; d2] =>
      forallb is_digit [y1; y2; y3; y4; m1; m2; d1; d2]
      && Ascii.eqb h1 "-" && Ascii.eqb h2 "-"
  | _ => false
  end.

(** ** Rows and states of the examples *)

Definition job1 : Job.t :=
  Job.Row 1 "Backend Engineer" "Acme" None "applied" None None.
Definition job2 : Job.t :=
  Job.Row 2 "Frontend" "Beta" (Some "http://beta.example") "interested"
    (Some (datetime.Date 2025 2 28)) (Some "call back").
Definition job3 : Job.t :=
  Job.Row 3 "Data Engineer" "Gamma" None "offer" None
    (Some ("first" +:+ String csv.LF "second")).

(** ** Claims that the code does not meet, as the specification words them *)

(** C2: whenever the id is absent and the status is outside the five
    values, the error signalled by [update] is NotFound. *)
Definition absent_id_reported_first : Prop :=
  forall (s : State) (rows : list Job.t) (i : Z) (status : string),
    disk s = Some rows -> (forall j, j ∈ rows -> Job.id j <> i) ->
    status ∉ cli.valid ->
    fails_with NotFound (cli.update i status) s.

(** C4: a blank status given to [add] is stored as the default. *)
Definition blank_status_defaulted (int : string -> option Z) : Prop :=
  forall (s : State) (title company : string),
  exists s' j,
    succeeds (cli.add int title company None None None (Some "")) s s' /\
    disk s' = Some (default [] (disk s) ++ [j]) /\
    Job.status j = "interested".

(** C8: the file that [export] writes for N stored jobs has N+1 lines. *)
Definition export_has_one_line_per_job : Prop :=
  forall (s : State) (rows : list Job.t) (path : string),
    disk s = Some rows -> rows <> [] ->
    exists text,
      files (cli.export (Some path) s).1 !! path = Some text /\
      lines text = S (length rows).

(** * The program as a whole *)

(** One run of the program: the subcommand that [app()] dispatches to, with
    its arguments as typer hands them over. *)
Inductive Invocation :=
| Init
| Add (title company : string) (link deadline notes status : option string)
| List (status : option string)
| Update (id : Z) (status : string)
| Remove (id : Z)
| Detail (id : Z)
| Export (filename : option string)
| Search (keyword : string).

Definition app (lower : string -> string) (int : string -> option Z)
    (c : Invocation) : M unit :=
  match c with
  | Init => cli.init
  | Add title company link deadline notes status =>
      cli.add int title company link deadline notes status
  | List status => cli.list status
  | Update id status => cli.update id status
  | Remove id => cli.remove id
  | Detail id => cli.detail id
  | Export filename => cli.export filename
  | Search keyword => cli.search lower keyword
  end.

(** The state after a sequence of runs, each started where the one before
    left table and files. *)
Definition runs (lower : string -> string) (int : string -> option Z)
    (cs : list Invocation) (s : State) : State :=
  foldl (fun s c => (app lower int c s).1) s cs.

(** The rows of the table, none while the table does not exist. *)
Definition rows_of (s : State) : list Job.t := default [] (disk s).

(** What a run does to the rows, as a function on tables. *)
Definition effect (int : string -> option Z) (c : Invocation)
    (rows : list Job.t) : list Job.t :=
  match c with
  | Add title company link deadline notes status =>
      match cli._parse_date int (typer.Option "" deadline) with
      | Ret d =>
          rows ++ [added_row title company link d notes status (models.next_id rows)]
      | Raise _ => rows
      end
  | Update i st => if py.mem st cli.valid then with_status i st rows else rows
  | Remove i => List.filter (fun r => negb (Job.id r =? i)%Z) rows
  | _ => rows
  end.

(** A table as the commands keep it: keys distinct and positive, every
    deadline a date of the calendar, no link and no note stored as the
    empty string. *)
Definition consistent (rows : list Job.t) : Prop :=
  NoDup (Job.id <$> rows) /\
  Forall (fun r =>
            (1 <= Job.id r)%Z /\
            from_option valid_date True (Job.deadline r) /\
            Job.link r <> Some "" /\ Job.notes r <> Some "") rows.

(** Every status of the table is one of the five of [update]. *)
Definition statuses_valid (rows : list Job.t) : Prop :=
  Forall (fun r => Job.status r ∈ cli.valid) rows.

(** A run that cannot store a status outside the five: every run but an
    [add] with such a status. *)
Definition keeps_statuses (c : Invocation) : Prop :=
  match c with
  | Add _ _ _ _ _ (Some st) => st ∈ cli.valid
  | _ => True
  end.

(** A run that only reads the table and writes no file. *)
Definition reads_only (c : Invocation) : Prop :=
  match c with
  | Init | List _ | Detail _ | Search _ => True
  | _ => False
  end.

(** The table that [detail] prints for the row [j]. *)
Definition detail_table (j : Job.t) : rich.Table :=
  rich.MkTable ("Job " +:+ py.str (Job.id j) +:+ " Details") true
    ["Field"; "Value"]
    [ ["ID"; py.str (Job.id j)];
      ["Title"; Job.title j];
      ["Company"; Job.company j];
      ["Status"; Job.status j];
      ["Deadline"; from_option datetime.isoformat cli.dash (Job.deadline j)];
      ["Link"; py.or_else (Job.link j) cli.dash];
      ["Notes"; py.or_else (Job.notes j) cli.dash] ].

(** [int] reads the numbers of a date as [isoformat] writes them. *)
Definition reads_date_parts (int : string -> option Z) : Prop :=
  (forall y, (1 <= y <= 9999)%Z -> int (py.zero_pad 4 (py.str y)) = Some y) /\
  (forall z, (1 <= z <= 31)%Z -> int (py.zero_pad 2 (py.str z)) = Some z).

(** * Properties of the commands *)

(** ** Lookup by primary key and membership in [valid] *)

Lemma mem_true (x : string) (l : list string) : py.mem x l = true <-> x ∈ l.
Proof.
  unfold py.mem. rewrite existsb_exists. split.
  - intros (y & Hy & Heq). apply String.eqb_eq in Heq. subst y.
    by apply list_elem_of_In.
  - intros Hx. exists x. split; [by apply list_elem_of_In | apply String.eqb_refl].
Qed.

Lemma mem_false (x : string) (l : list string) : py.mem x l = false <-> x ∉ l.
Proof.
  rewrite <- mem_true. destruct (py.mem x l); split; congruence.
Qed.

Lemma find_id_Some (rows : list Job.t) (i : Z) (j : Job.t) :
  List.find (fun r => (Job.id r =? i)%Z) rows = Some j -> j ∈ rows /\ Job.id j = i.
Proof.
  intros H. apply find_some in H as [Hin Heq].
  split; [by apply list_elem_of_In | lia].
Qed.

Lemma find_id_None (rows : list Job.t) (i : Z) :
  List.find (fun r => (Job.id r =? i)%Z) rows = None <->
  forall j, j ∈ rows -> Job.id j <> i.
Proof.
  split.
  - intros H j Hj. apply list_elem_of_In in Hj.
    pose proof (find_none _ _ H j Hj) as Hne. cbn in Hne. lia.
  - intros H. destruct (List.find _ rows) as [j|] eqn:E; [| done].
    apply find_id_Some in E as [Hin Heq]. by destruct (H j Hin).
Qed.

Lemma find_id_present (rows : list Job.t) (j : Job.t) :
  j ∈ rows ->
  exists j', List.find (fun r => (Job.id r =? Job.id j)%Z) rows = Some j'
             /\ j' ∈ rows /\ Job.id j' = Job.id j.
Proof.
  intros Hin.
  destruct (List.find (fun r => (Job.id r =? Job.id j)%Z) rows) as [j'|] eqn:E.
  - exists j'. split; [done |]. by apply find_id_Some in E.
  - exfalso. by apply (proj1 (find_id_None rows (Job.id j)) E j).
Qed.

(** The line [update] prints for a status outside [valid] is the constant
    [msg_invalid_status]. *)
Lemma invalid_status_line :
  rich.Text ("[red]Invalid status.[/red] Use one of: "
             +:+ py.join ", " (py.sorted cli.valid)) = msg_invalid_status.
Proof. reflexivity. Qed.

(** ** update *)

Arguments py.mem : simpl never.
Arguments models.int64 : simpl never.

(** Unfolds a command applied to a state down to the state operations. *)
Ltac run :=
  unfold cli.update, cli.remove, cli.detail, models.SessionLocal,
    models.Session.get, models.Session.select_all, models.Session.set_status,
    models.Session.delete, models.Session.add, models.Session.commit,
    models.init_db, print, raise, call, mbind, M_bind, mret, M_ret,
    set_pending, set_console, set_disk, set_files; cbn.

Lemma update_invalid (s : State) (i : Z) (st : string) :
  st ∉ cli.valid ->
  cli.update i st s
  = (MkState (disk s) (files s) (console s ++ [msg_invalid_status]) (pending s),
     Raise (Exit 1)).
Proof.
  intros Hst. apply mem_false in Hst. run. rewrite Hst. reflexivity.
Qed.

Lemma update_absent (s : State) (rows : list Job.t) (i : Z) (st : string) :
  st ∈ cli.valid -> disk s = Some rows ->
  (forall j, j ∈ rows -> Job.id j <> i) -> models.int64 i = true ->
  cli.update i st s
  = (MkState (Some rows) (files s) (console s ++ [msg_not_found]) [],
     Raise (Exit 1)).
Proof.
  intros Hst Hd Hno Hi. apply mem_true in Hst. apply find_id_None in Hno.
  run. rewrite Hst. cbn. rewrite Hd. cbn. by rewrite Hno, Hi.
Qed.

Lemma update_overflow (s : State) (rows : list Job.t) (i : Z) (st : string) :
  st ∈ cli.valid -> disk s = Some rows ->
  (forall j, j ∈ rows -> Job.id j <> i) -> models.int64 i = false ->
  cli.update i st s
  = (MkState (Some rows) (files s) (console s) [], Raise OverflowError).
Proof.
  intros Hst Hd Hno Hi. apply mem_true in Hst. apply find_id_None in Hno.
  run. rewrite Hst. cbn. rewrite Hd. cbn. by rewrite Hno, Hi.
Qed.

Lemma update_present (s : State) (rows : list Job.t) (i : Z) (st : string)
    (j : Job.t) :
  st ∈ cli.valid -> disk s = Some rows ->
  List.find (fun r => (Job.id r =? i)%Z) rows = Some j ->
  cli.update i st s
  = (MkState
       (Some ((fun r => if (Job.id r =? i)%Z then Job.set_status st r else r)
                <$> rows))
       (files s)
       (console s ++ [rich.Text ("[yellow]Updated[/yellow] " +:+ py.str i
                                  +:+ " -> " +:+ st)])
       [],
     Ret tt).
Proof.
  intros Hst Hd Hj. apply mem_true in Hst.
  pose proof (find_id_Some _ _ _ Hj) as [_ Hid].
  run. rewrite Hst. cbn. rewrite Hd. cbn. rewrite Hj. cbn.
  by rewrite Hid.
Qed.

Lemma with_status_frame (i : Z) (st : string) (rows : list Job.t) :
  Forall2 (fun r r' =>
             same_but_status r r' /\
             (Job.id r <> i -> r' = r) /\
             (Job.id r = i -> Job.status r' = st))
          rows (with_status i st rows).
Proof.
  unfold with_status. induction rows as [|r rows IH]; cbn; constructor; [| done].
  destruct (Z.eqb_spec (Job.id r) i) as [Heq | Hne].
  - unfold same_but_status. cbn. repeat split; done.
  - unfold same_but_status. repeat split; done.
Qed.

(** C1. For every stored job and every status outside the five values,
    [update] with the id of that job and that status signals InvalidInput
    (the line for an invalid status, exit status 1) and the table is the
    one it was: no row and no field of a row has changed. *)
Theorem update_invalid_status_keeps_table
    (s : State) (rows : list Job.t) (j : Job.t) (status : string) :
  disk s = Some rows -> j ∈ rows -> status ∉ cli.valid ->
  fails_with InvalidInput (cli.update (Job.id j) status) s /\
  disk (cli.update (Job.id j) status s).1 = Some rows /\
  exit_code (cli.update (Job.id j) status s).2 <> 0%Z.
Proof.
  intros Hd _ Hst. rewrite (update_invalid s (Job.id j) status Hst). cbn.
  split; [| by split].
  eexists _, _, _. split; [apply (update_invalid s (Job.id j) status Hst) |].
  cbn. repeat split; done.
Qed.

Lemma update_invalid_status_keeps_table_witness :
  fails_with InvalidInput (cli.update 1 "done") (stored [job1; job2]) /\
  disk (cli.update 1 "done" (stored [job1; job2])).1 = Some [job1; job2] /\
  exit_code (cli.update 1 "done" (stored [job1; job2])).2 <> 0%Z.
Proof.
  apply (update_invalid_status_keeps_table (stored [job1; job2]) [job1; job2]
           job1 "done").
  - reflexivity.
  - by left.
  - by apply mem_false.
Defined.

(** C2, counterexample.  With jobs 1 and 2 stored, [update 7 "done"] names
    an absent id and an invalid status; the line printed is the one for the
    invalid status, not the one for a missing job. *)
Lemma update_absent_id_invalid_status_counterexample :
  ~ fails_with NotFound (cli.update 7 "done") (stored [job1; job2]) /\
  ~ absent_id_reported_first.
Proof.
  assert (Hno : ~ fails_with NotFound (cli.update 7 "done") (stored [job1; job2])).
  { intros (s' & r & p & Hrun & _ & Hsig & Hcon & _).
    vm_compute in Hrun. injection Hrun as <- <-. cbn in Hcon.
    injection Hcon as <-. destruct Hsig as [Hp | Hp]; discriminate Hp. }
  split; [exact Hno |].
  intros Hclaim. apply Hno.
  apply (Hclaim (stored [job1; job2]) [job1; job2] 7%Z "done").
  - reflexivity.
  - intros j Hj. repeat (apply elem_of_cons in Hj as [-> | Hj]; [cbn; lia |]).
    by apply elem_of_nil in Hj.
  - by apply mem_false.
Qed.

(** C2, amended.  [update] tests the status before it opens the session:
    a status outside the five values signals InvalidInput from every state,
    whatever the id and whether or not the table exists, and the store is
    as it was.  With a valid status and the table present, an absent id
    signals NotFound when it is a 64-bit integer and raises OverflowError,
    nothing printed or stored, when it is not; a stored id has the status
    of its row set, the change committed, and the run returns. *)
Theorem update_checks_status_then_id (s : State) (i : Z) (status : string) :
  (status ∉ cli.valid ->
   fails_with InvalidInput (cli.update i status) s /\
   disk (cli.update i status s).1 = disk s) /\
  (status ∈ cli.valid -> forall rows, disk s = Some rows ->
   ((forall j, j ∈ rows -> Job.id j <> i) -> models.int64 i = true ->
    fails_with NotFound (cli.update i status) s) /\
   ((forall j, j ∈ rows -> Job.id j <> i) -> models.int64 i = false ->
    cli.update i status s
    = (MkState (Some rows) (files s) (console s) [], Raise OverflowError)) /\
   ((exists j, j ∈ rows /\ Job.id j = i) ->
    exists s',
      succeeds (cli.update i status) s s' /\
      disk s' = Some (with_status i status rows) /\
      files s' = files s /\
      console s' = console s ++
        [rich.Text ("[yellow]Updated[/yellow] " +:+ py.str i +:+ " -> "
                    +:+ status)])).
Proof.
  split.
  - intros Hst. rewrite (update_invalid s i status Hst). cbn.
    split; [| reflexivity]. eexists _, _, _.
    split; [apply (update_invalid s i status Hst) |]. cbn. repeat split; done.
  - intros Hst rows Hd. split; [| split].
    + intros Hno Hi. eexists _, _, _.
      split; [apply (update_absent s rows i status Hst Hd Hno Hi) |]. cbn.
      repeat split; try done. by left.
    + intros Hno Hi. apply (update_overflow s rows i status Hst Hd Hno Hi).
    + intros (j & Hj & <-).
      destruct (find_id_present rows j Hj) as (j' & Hfind & _ & _).
      eexists. split; [apply (update_present s rows _ status j' Hst Hd Hfind) |].
      cbn. repeat split; done.
Qed.

Lemma update_checks_status_then_id_witness :
  fails_with InvalidInput (cli.update 7 "done") (stored [job1; job2]) /\
  fails_with InvalidInput (cli.update 7 "done") fresh /\
  fails_with NotFound (cli.update 7 "offer") (stored [job1; job2]) /\
  cli.update (2 ^ 63) "offer" (stored [job1; job2])
  = (stored [job1; job2], Raise OverflowError) /\
  exists s',
    succeeds (cli.update 2 "offer") (stored [job1; job2]) s' /\
    disk s' = Some [job1; Job.set_status "offer" job2].
Proof.
  destruct (update_checks_status_then_id (stored [job1; job2]) 7 "done")
    as [H1 _].
  destruct (update_checks_status_then_id fresh 7 "done") as [H0 _].
  destruct (update_checks_status_then_id (stored [job1; job2]) 7 "offer")
    as [_ H2].
  destruct (update_checks_status_then_id (stored [job1; job2]) (2 ^ 63) "offer")
    as [_ H3].
  destruct (update_checks_status_then_id (stored [job1; job2]) 2 "offer")
    as [_ H4].
  assert (Hoffer : "offer" ∈ cli.valid) by (by apply mem_true).
  assert (Hno : forall i : Z, (2 < i)%Z ->
                  forall j, j ∈ [job1; job2] -> Job.id j <> i).
  { intros i Hi j Hj.
    repeat (apply elem_of_cons in Hj as [-> | Hj]; [cbn; lia |]).
    by apply elem_of_nil in Hj. }
  split; [| split; [| split; [| split]]].
  - apply H1. by apply mem_false.
  - apply H0. by apply mem_false.
  - destruct (H2 Hoffer [job1; job2] eq_refl) as (Habsent & _ & _).
    apply Habsent; [apply Hno; lia | reflexivity].
  - destruct (H3 Hoffer [job1; job2] eq_refl) as (_ & Hover & _).
    apply Hover; [apply Hno; lia | reflexivity].
  - destruct (H4 Hoffer [job1; job2] eq_refl) as (_ & _ & Hpresent).
    destruct Hpresent as (s' & Hrun & Hdisk & _).
    + exists job2. split; [right; left | reflexivity].
    + exists s'. split; [exact Hrun | exact Hdisk].
Defined.

(** C3. For every stored job and every status among the five values,
    [update] with the id of that job returns, and row by row the new table
    is the old one: a row with another id is the same row, a row with that
    id has the new status and its id, title, company, link, deadline and
    notes as before.  The files are untouched. *)
Theorem update_valid_changes_only_status
    (s : State) (rows : list Job.t) (j : Job.t) (status : string) :
  disk s = Some rows -> j ∈ rows -> status ∈ cli.valid ->
  exists s' rows',
    succeeds (cli.update (Job.id j) status) s s' /\
    disk s' = Some rows' /\ files s' = files s /\
    Forall2 (fun r r' =>
               same_but_status r r' /\
               (Job.id r <> Job.id j -> r' = r) /\
               (Job.id r = Job.id j -> Job.status r' = status))
            rows rows'.
Proof.
  intros Hd Hj Hst.
  destruct (find_id_present rows j Hj) as (j' & Hfind & _ & _).
  eexists _, (with_status (Job.id j) status rows).
  split; [apply (update_present s rows _ status j' Hst Hd Hfind) |]. cbn.
  repeat split; try done. apply with_status_frame.
Qed.

Lemma update_valid_changes_only_status_witness :
  exists s' rows',
    succeeds (cli.update (Job.id job2) "offer") (stored [job1; job2]) s' /\
    disk s' = Some rows' /\ files s' = files (stored [job1; job2]) /\
    Forall2 (fun r r' =>
               same_but_status r r' /\
               (Job.id r <> Job.id job2 -> r' = r) /\
               (Job.id r = Job.id job2 -> Job.status r' = "offer"))
            [job1; job2] rows'.
Proof.
  apply (update_valid_changes_only_status (stored [job1; job2]) [job1; job2]
           job2 "offer").
  - reflexivity.
  - right. left.
  - by apply mem_true.
Defined.

(** ** add *)

Section add_facts.

Variable int : string -> option Z.

Lemma add_parsed (s : State) (title company : string)
    (link deadline notes status : option string) (d : option datetime.date) :
  cli._parse_date int (typer.Option "" deadline) = Ret d ->
  let rows := default [] (disk s) in
  let j := added_row title company link d notes status (models.next_id rows) in
  cli.add int title company link deadline notes status s
  = (MkState (Some (rows ++ [j])) (files s)
       (console s ++
          [rich.Text ("[green]Added[/green] " +:+ title +:+ " @ " +:+ company
                      +:+ " (id=" +:+ py.str (models.next_id rows) +:+ ")")])
       [],
     Ret tt).
Proof.
  intros Hp. unfold cli.add. run. rewrite Hp. reflexivity.
Qed.

Lemma add_malformed (s : State) (title company : string)
    (link deadline notes status : option string) (e : Exn) :
  cli._parse_date int (typer.Option "" deadline) = Raise e ->
  cli.add int title company link deadline notes status s
  = (MkState (Some (default [] (disk s))) (files s) (console s) [], Raise e).
Proof.
  intros Hp. unfold cli.add. run. rewrite Hp. reflexivity.
Qed.

(** Without [--deadline] (or with an empty one) there is nothing to
    parse. *)
Lemma parse_no_deadline (deadline : option string) :
  deadline = None \/ deadline = Some "" ->
  cli._parse_date int (typer.Option "" deadline) = Ret None.
Proof. intros [-> | ->]; reflexivity. Qed.

(** C4, amended.  Whenever the deadline is absent or parses, [add]
    returns and appends one row; its status is "interested" when no
    status was given, and the given string, blank or not, otherwise.  The
    other columns are the arguments, an empty link or note stored as
    absent. *)
Theorem add_status_given_or_default (s : State) (title company : string)
    (link deadline notes status : option string) (d : option datetime.date) :
  cli._parse_date int (typer.Option "" deadline) = Ret d ->
  exists s' j,
    succeeds (cli.add int title company link deadline notes status) s s' /\
    disk s' = Some (default [] (disk s) ++ [j]) /\
    Job.status j = match status with
                   | None => "interested"
                   | Some st => st
                   end /\
    Job.title j = title /\ Job.company j = company /\ Job.deadline j = d /\
    Job.link j = py.or_none (default "" link) /\
    Job.notes j = py.or_none (default "" notes) /\
    Job.id j = models.next_id (default [] (disk s)).
Proof.
  intros Hp. eexists _, _.
  split; [apply (add_parsed s title company link deadline notes status d Hp) |].
  cbn. split; [reflexivity |]. by destruct status.
Qed.

End add_facts.

(** C4, counterexample.  [add "Backend Engineer" "Acme" --status ""] on a
    first run stores the row with the empty status, whatever [int] does. *)
Lemma add_blank_status_counterexample :
  disk (cli.add ascii_py.int "Backend Engineer" "Acme" None None None (Some "")
          fresh).1
  = Some [Job.Row 1 "Backend Engineer" "Acme" None "" None None] /\
  ~ (exists int, blank_status_defaulted int).
Proof.
  split; [reflexivity |].
  intros (int & Hclaim).
  destruct (Hclaim fresh "Backend Engineer" "Acme") as (s' & j & Hrun & Hd & Hst).
  unfold succeeds in Hrun. vm_compute in Hrun. injection Hrun as <-.
  cbn in Hd. injection Hd as <-. discriminate Hst.
Qed.

Lemma add_status_given_or_default_witness :
  exists s' j,
    succeeds (cli.add ascii_py.int "Frontend" "Beta" None (Some "2025-02-28")
                (Some "call back") None) (stored [job1]) s' /\
    disk s' = Some ([job1] ++ [j]) /\ Job.status j = "interested".
Proof.
  destruct (add_status_given_or_default ascii_py.int (stored [job1])
              "Frontend" "Beta" None (Some "2025-02-28") (Some "call back") None
              (Some (datetime.Date 2025 2 28)) eq_refl)
    as (s' & j & Hrun & Hd & Hst & _).
  exists s', j. split; [exact Hrun |]. split; [exact Hd | exact Hst].
Defined.

(** ** remove and detail *)

Lemma remove_absent (s : State) (rows : list Job.t) (i : Z) :
  disk s = Some rows -> (forall j, j ∈ rows -> Job.id j <> i) ->
  models.int64 i = true ->
  cli.remove i s
  = (MkState (Some rows) (files s) (console s ++ [msg_not_found]) [],
     Raise (Exit 1)).
Proof.
  intros Hd Hno Hi. apply find_id_None in Hno. run. rewrite Hd. cbn.
  by rewrite Hno, Hi.
Qed.

Lemma lookup_overflow (s : State) (rows : list Job.t) (i : Z) :
  disk s = Some rows -> (forall j, j ∈ rows -> Job.id j <> i) ->
  models.int64 i = false ->
  cli.remove i s = (MkState (Some rows) (files s) (console s) [], Raise OverflowError)
  /\ cli.detail i s
     = (MkState (Some rows) (files s) (console s) [], Raise OverflowError).
Proof.
  intros Hd Hno Hi. apply find_id_None in Hno. run. rewrite Hd. cbn.
  by rewrite Hno, Hi.
Qed.

Lemma remove_present (s : State) (rows : list Job.t) (i : Z) (j : Job.t) :
  disk s = Some rows ->
  List.find (fun r => (Job.id r =? i)%Z) rows = Some j ->
  cli.remove i s
  = (MkState (Some (List.filter (fun r => negb (Job.id r =? i)%Z) rows)) (files s)
       (console s ++ [rich.Text ("[red]Removed[/red] " +:+ py.str i)]) [],
     Ret tt).
Proof.
  intros Hd Hj. pose proof (find_id_Some _ _ _ Hj) as [_ Hid].
  run. rewrite Hd. cbn. rewrite Hj. cbn. by rewrite Hid.
Qed.

Lemma detail_absent (s : State) (rows : list Job.t) (i : Z) :
  disk s = Some rows -> (forall j, j ∈ rows -> Job.id j <> i) ->
  models.int64 i = true ->
  cli.detail i s
  = (MkState (Some rows) (files s) (console s ++ [msg_job_not_found]) [],
     Raise (Exit 1)).
Proof.
  intros Hd Hno Hi. apply find_id_None in Hno. run. rewrite Hd. cbn.
  by rewrite Hno, Hi.
Qed.

Lemma elem_of_without (rows : list Job.t) (i : Z) (r : Job.t) :
  r ∈ List.filter (fun r => negb (Job.id r =? i)%Z) rows <->
  r ∈ rows /\ Job.id r <> i.
Proof.
  rewrite !list_elem_of_In, filter_In.
  destruct (Z.eqb_spec (Job.id r) i); cbn; intuition congruence.
Qed.

(** With the table present and an id that is a 64-bit integer: when a job
    with the id is stored, [remove] returns, the rows left are exactly the
    rows with another id, and [detail] on that id, run next, signals
    NotFound; when no job has the id, [remove] signals NotFound with exit
    status 1 and table and files are as they were. *)
Lemma remove_then_detail_with_table (s : State) (rows : list Job.t) (i : Z) :
  disk s = Some rows -> models.int64 i = true ->
  ((exists j, j ∈ rows /\ Job.id j = i) ->
   exists s' rows',
     succeeds (cli.remove i) s s' /\ disk s' = Some rows' /\
     (forall r, r ∈ rows' <-> r ∈ rows /\ Job.id r <> i) /\
     fails_with NotFound (cli.detail i) s') /\
  ((forall j, j ∈ rows -> Job.id j <> i) ->
   fails_with NotFound (cli.remove i) s /\
   disk (cli.remove i s).1 = Some rows).
Proof.
  intros Hd Hi. split.
  - intros (j & Hj & <-).
    destruct (find_id_present rows j Hj) as (j' & Hfind & _ & _).
    eexists _, _. split; [apply (remove_present s rows _ j' Hd Hfind) |].
    cbn. split; [reflexivity |]. split; [apply elem_of_without |].
    eexists _, _, _. split.
    + apply detail_absent; [reflexivity | | exact Hi].
      intros r Hr. by apply elem_of_without in Hr as [_ Hr].
    + cbn. repeat split; try done. by right.
  - intros Hno. rewrite (remove_absent s rows i Hd Hno Hi). cbn.
    split; [| reflexivity].
    eexists _, _, _. split; [apply (remove_absent s rows i Hd Hno Hi) |].
    cbn. repeat split; try done. by left.
Qed.

(** C5, at the failing input.  On a first run no job has the id 1, yet
    [remove 1] does not signal NotFound: the table does not exist, [remove]
    does not create it, and the lookup raises OperationalError, exit status
    1.  Run after [init] from the same state, [remove 1] signals NotFound
    as the claim says. *)
Theorem remove_on_first_run_raises :
  (forall j, j ∈ default [] (disk fresh) -> Job.id j <> 1%Z) /\
  cli.remove 1 fresh = (fresh, Raise OperationalError) /\
  exit_code (cli.remove 1 fresh).2 = 1%Z /\
  ~ fails_with NotFound (cli.remove 1) fresh /\
  fails_with NotFound (cli.remove 1) (cli.init fresh).1.
Proof.
  split; [intros j Hj; by apply elem_of_nil in Hj |].
  split; [reflexivity |]. split; [reflexivity |]. split.
  - intros (s' & r & p & Hrun & _ & _ & Hcon & _).
    injection Hrun as <- <-. by destruct (console fresh).
  - eexists _, _, _. split; [reflexivity |]. cbn. repeat split; try done.
    by left.
Qed.

(** ** Restriction of a list, and the tables of list and search *)

Lemma restricted_filter {A : Type} (f : A -> bool) (P : A -> Prop) (l : list A) :
  (forall x, f x = true <-> P x) -> restricted P l (List.filter f l).
Proof.
  intros Hf. induction l as [|x l IH]; cbn; [constructor |].
  destruct (f x) eqn:E.
  - apply restricted_keep; [by apply Hf | exact IH].
  - apply restricted_drop; [| exact IH]. intros HP. apply Hf in HP. congruence.
Qed.

Lemma restricted_elem_of {A : Type} (P : A -> Prop) (l l' : list A) :
  restricted P l l' -> forall x, x ∈ l' <-> x ∈ l /\ P x.
Proof.
  induction 1 as [| x l l' HP _ IH | x l l' HP _ IH]; intros y.
  - split; [intros Hy | intros [Hy _]]; by apply elem_of_nil in Hy.
  - rewrite !elem_of_cons, IH. split.
    + intros [-> | [Hy HPy]]; [split; [by left | done] | split; [by right | done]].
    + intros [[-> | Hy] HPy]; [by left | right; by split].
  - rewrite elem_of_cons, IH. split.
    + intros [Hy HPy]. split; [by right | done].
    + intros [[-> | Hy] HPy]; [done | by split].
Qed.

(** The relation has one answer: it says which list is shown. *)
Lemma restricted_functional {A : Type} (P : A -> Prop) (l l1 l2 : list A) :
  restricted P l l1 -> restricted P l l2 -> l1 = l2.
Proof.
  intros H1. revert l2.
  induction H1 as [| x l l1 HP _ IH | x l l1 HP _ IH]; intros l2 H2;
    inversion H2; subst; try done.
  - f_equal. by apply IH.
  - by apply IH.
Qed.

Lemma foldl_add_row (t : rich.Table) (shown : list Job.t) :
  foldl (fun t r => rich.add_row t (cli.cells r)) t shown
  = rich.MkTable (rich.title t) (rich.show_lines t) (rich.columns t)
      (rich.rows t ++ (cli.cells <$> shown)).
Proof.
  revert t. induction shown as [|r shown IH]; intros t; cbn.
  - rewrite app_nil_r. by destruct t.
  - rewrite IH. cbn. by rewrite <- app_assoc.
Qed.

(** ** list *)

Lemma list_run (s : State) (status : option string) :
  let rows := default [] (disk s) in
  let shown :=
    if py.truthy (typer.Option "" status)
    then List.filter (fun r => String.eqb (Job.status r) (typer.Option "" status)) rows
    else rows in
  cli.list status s
  = (MkState (Some rows) (files s)
       (console s ++ [rich.Grid (listing "Jobs" shown)]) [],
     Ret tt).
Proof.
  cbn zeta. unfold cli.list. run. by rewrite foldl_add_row.
Qed.

Lemma truthy_nonempty (x : string) : x <> "" -> py.truthy x = true.
Proof. intros Hx. unfold py.truthy. by destruct x. Qed.

(** C6. For every state and every non-empty filter string, [list] prints
    the table of exactly the stored rows whose status equals that string
    (those rows, no others, in stored order); without a filter it prints the
    table of all the rows. *)
Theorem list_shows_rows_of_status (s : State) (status : string) :
  status <> "" ->
  (exists s' shown,
     succeeds (cli.list (Some status)) s s' /\
     console s' = console s ++ [rich.Grid (listing "Jobs" shown)] /\
     restricted (fun r => Job.status r = status) (default [] (disk s)) shown /\
     (forall r, r ∈ shown <-> r ∈ default [] (disk s) /\ Job.status r = status)) /\
  (exists s',
     succeeds (cli.list None) s s' /\
     console s' = console s ++ [rich.Grid (listing "Jobs" (default [] (disk s)))]).
Proof.
  intros Hst. split.
  - assert (Hr : restricted (fun r => Job.status r = status) (default [] (disk s))
                   (List.filter (fun r => String.eqb (Job.status r) status)
                      (default [] (disk s)))).
    { apply restricted_filter. intros r. apply String.eqb_eq. }
    eexists _, _. split; [apply (list_run s (Some status)) |]. cbn.
    rewrite (truthy_nonempty status Hst).
    split; [reflexivity |]. split; [exact Hr |].
    by apply restricted_elem_of.
  - eexists. split; [apply (list_run s None) |]. reflexivity.
Qed.

Lemma list_shows_rows_of_status_witness :
  (exists s' shown,
     succeeds (cli.list (Some "applied")) (stored [job1; job2; job3]) s' /\
     console s' = [rich.Grid (listing "Jobs" shown)] /\
     restricted (fun r => Job.status r = "applied") [job1; job2; job3] shown /\
     (forall r, r ∈ shown <-> r ∈ [job1; job2; job3] /\ Job.status r = "applied")) /\
  (exists s',
     succeeds (cli.list None) (stored [job1; job2; job3]) s' /\
     console s' = [rich.Grid (listing "Jobs" [job1; job2; job3])]).
Proof.
  apply (list_shows_rows_of_status (stored [job1; job2; job3]) "applied").
  discriminate.
Defined.

(** ** search *)

Lemma append_cons (c : ascii) (a b : string) :
  String c a +:+ b = String c (a +:+ b).
Proof. reflexivity. Qed.

Lemma append_nil_l (b : string) : "" +:+ b = b.
Proof. reflexivity. Qed.

Lemma append_nil_r (a : string) : a +:+ "" = a.
Proof.
  induction a as [|c a IH]; [done |]. by rewrite append_cons, IH.
Qed.

Lemma append_assoc (a b c : string) : (a +:+ b) +:+ c = a +:+ (b +:+ c).
Proof.
  induction a as [|x a IH]; [done |]. by rewrite !append_cons, IH.
Qed.

Lemma prefix_spec (k f : string) :
  String.prefix k f = true <-> exists b, f = k +:+ b.
Proof.
  revert f. induction k as [|c k IH]; intros f.
  - split; [intros _; exists f; reflexivity | intros _; by destruct f].
  - destruct f as [|c' f].
    { split; [discriminate | intros [b Hb]; discriminate]. }
    change (String.prefix (String c k) (String c' f))
      with (if Ascii.ascii_dec c c' then String.prefix k f else false).
    destruct (Ascii.ascii_dec c c') as [<- | Hne].
    + rewrite IH. split; intros [b Hb]; exists b.
      * by rewrite append_cons, Hb.
      * rewrite append_cons in Hb. by injection Hb.
    + split; [discriminate |]. intros [b Hb]. rewrite append_cons in Hb.
      injection Hb as Hc _. congruence.
Qed.

Lemma contains_spec (k f : string) : py.contains k f = true <-> substring k f.
Proof.
  induction f as [|c f IH]; cbn [py.contains]; rewrite orb_true_iff, prefix_spec.
  - split.
    + intros [[b Hb] | Hf]; [exists "", b; exact Hb | done].
    + intros ([|x a] & b & Hab); [left; by exists b | discriminate].
  - rewrite IH. split.
    + intros [[b Hb] | (a & b & Hab)]; [exists "", b; exact Hb |].
      exists (String c a), b. by rewrite append_cons, Hab.
    + intros ([|x a] & b & Hab); [left; by exists b |].
      right. exists a, b. rewrite append_cons in Hab. by injection Hab.
Qed.

Lemma contains_empty (f : string) : py.contains "" f = true.
Proof. apply contains_spec. exists "", f. reflexivity. Qed.

Lemma or_else_str (t : string) : py.or_else (Some t) "" = t.
Proof. by destruct t. Qed.

Lemma or_else_default (o : option string) : py.or_else o "" = default "" o.
Proof. destruct o as [t|]; [apply or_else_str | reflexivity]. Qed.

Section search_facts.

Variable lower : string -> string.

Lemma match_spec (keyword : string) (r : Job.t) :
  cli.match_ lower (lower keyword) r = true <-> matches lower keyword r.
Proof.
  unfold cli.match_, matches. cbn [existsb].
  rewrite !orb_true_iff, !contains_spec, !or_else_str, or_else_default.
  intuition discriminate.
Qed.

Lemma search_run (s : State) (keyword : string) :
  cli.search lower keyword s
  = (MkState (Some (default [] (disk s))) (files s)
       (console s ++
          [search_report keyword
             (List.filter (cli.match_ lower (lower keyword)) (default [] (disk s)))])
       [],
     Ret tt).
Proof.
  unfold cli.search. run.
  destruct (List.filter _ _) as [|r results] eqn:E; cbn; [done |].
  rewrite foldl_add_row. reflexivity.
Qed.

(** C7. For every state and every keyword, [search] prints the table of
    exactly the stored rows for which the lowered keyword is a substring of
    the lowered title, of the lowered company or of the lowered notes
    (absent notes read as the empty string), in stored order, or the
    no-result line when there is none. *)
Theorem search_returns_matching_rows (s : State) (keyword : string) :
  exists s' results,
    succeeds (cli.search lower keyword) s s' /\
    console s' = console s ++ [search_report keyword results] /\
    restricted (matches lower keyword) (default [] (disk s)) results /\
    (forall r, r ∈ results <-> r ∈ default [] (disk s) /\ matches lower keyword r) /\
    disk s' = Some (default [] (disk s)) /\ files s' = files s.
Proof.
  assert (Hr : restricted (matches lower keyword) (default [] (disk s))
                 (List.filter (cli.match_ lower (lower keyword)) (default [] (disk s)))).
  { apply restricted_filter. intros r. apply match_spec. }
  eexists _, _. split; [apply search_run |]. cbn.
  split; [reflexivity |]. split; [exact Hr |].
  split; [by apply restricted_elem_of | done].
Qed.

(** C10. When lowering the empty string gives the empty string, [search]
    with the empty keyword on a table that has rows prints the table of all
    of them, not the no-result line. *)
Theorem search_empty_keyword_returns_all (s : State) (rows : list Job.t) :
  lower "" = "" -> disk s = Some rows -> rows <> [] ->
  exists s',
    succeeds (cli.search lower "") s s' /\
    console s' = console s ++ [rich.Grid (listing "Search results for ''" rows)] /\
    search_report "" rows <> rich.Text "[yellow]No jobs found for ''[/yellow]".
Proof.
  intros Hl Hd Hne. eexists. split; [apply search_run |]. cbn.
  rewrite Hd, Hl. cbn.
  assert (Hall : List.filter (cli.match_ lower "") rows = rows).
  { apply forallb_filter_id, forallb_forall. intros r _.
    unfold cli.match_. cbn [existsb]. by rewrite contains_empty. }
  rewrite Hall. destruct rows as [|r rows]; [done |]. split; [reflexivity | done].
Qed.

End search_facts.

Lemma search_empty_keyword_returns_all_witness :
  exists s',
    succeeds (cli.search ascii_py.lower "") (stored [job1; job2]) s' /\
    console s' = [rich.Grid (listing "Search results for ''" [job1; job2])] /\
    search_report "" [job1; job2] <> rich.Text "[yellow]No jobs found for ''[/yellow]".
Proof.
  apply (search_empty_keyword_returns_all ascii_py.lower (stored [job1; job2])
           [job1; job2]).
  - reflexivity.
  - reflexivity.
  - discriminate.
Defined.

(** The example of the specification: the job "Backend Engineer" at "Acme"
    is found by "backend" and by "acme" (here typed in capitals) and not by
    "frontend". *)
Example search_backend_engineer :
  console (cli.search ascii_py.lower "backend" (stored [job1; job2])).1
  = [rich.Grid (listing "Search results for 'backend'" [job1])] /\
  console (cli.search ascii_py.lower "ACME" (stored [job1; job2])).1
  = [rich.Grid (listing "Search results for 'ACME'" [job1])] /\
  cli.match_ ascii_py.lower (ascii_py.lower "frontend") job1 = false.
Proof. repeat split. Qed.

(** ** export *)

Lemma csv_fields_values (r : Job.t) : cli.csv_fields r = exported_values r.
Proof.
  unfold cli.csv_fields, exported_values. rewrite !or_else_default.
  by destruct (Job.deadline r).
Qed.

Lemma concat_cons (x : string) (l : list string) :
  String.concat "" (x :: l) = x +:+ String.concat "" l.
Proof. destruct l; cbn; [by rewrite append_nil_r | reflexivity]. Qed.

Lemma foldl_writerow (acc : string) (rows : list Job.t) :
  foldl (fun f r => f +:+ csv.writerow (cli.csv_fields r)) acc rows
  = acc +:+ String.concat "" (csv.writerow <$> (exported_values <$> rows)).
Proof.
  revert acc. induction rows as [|r rows IH]; intros acc.
  - cbn. by rewrite append_nil_r.
  - cbn [foldl fmap list_fmap]. rewrite IH, concat_cons, csv_fields_values.
    apply append_assoc.
Qed.

Lemma export_text_eq (rows : list Job.t) :
  export_text rows
  = csv.writerow cli.csv_header
    +:+ String.concat "" (csv.writerow <$> (exported_values <$> rows)).
Proof.
  unfold export_text, export_records. by rewrite fmap_cons, concat_cons.
Qed.

Arguments export_text : simpl never.

Lemma export_empty (s : State) (filename : option string) :
  default [] (disk s) = [] ->
  cli.export filename s
  = (MkState (Some []) (files s)
       (console s ++ [rich.Text "[yellow]No jobs to export[/yellow]"]) [],
     Ret tt).
Proof.
  intros Hrows. unfold cli.export. run. by rewrite Hrows.
Qed.

Lemma export_rows (s : State) (filename : option string) (rows : list Job.t) :
  default [] (disk s) = rows -> rows <> [] ->
  cli.export filename s
  = (MkState (Some rows)
       (<[default "jobs_export.csv" filename := export_text rows]> (files s))
       (console s ++
          [rich.Text ("[green]Exported " +:+ py.str (Z.of_nat (length rows))
                      +:+ " jobs to " +:+ default "jobs_export.csv" filename
                      +:+ "[/green]")])
       [],
     Ret tt).
Proof.
  intros Hrows Hne. unfold cli.export. run. rewrite Hrows.
  destruct rows as [|r rows]; [done |]. cbn.
  rewrite foldl_writerow, export_text_eq, !fmap_cons, concat_cons.
  by rewrite csv_fields_values, append_assoc.
Qed.

(** *** Counting the lines of the file *)

Lemma lines_app (a b : string) : lines (a +:+ b) = lines a + lines b.
Proof.
  unfold lines. induction a as [|x a IH]; [done |].
  rewrite append_cons. cbn [count_char]. rewrite IH. lia.
Qed.

Lemma lines_cons (c : ascii) (a : string) :
  lines (String c a) = (if Ascii.eqb c csv.LF then 1 else 0) + lines a.
Proof. reflexivity. Qed.

Lemma sum_list_cons (x : nat) (l : list nat) : sum_list (x :: l) = x + sum_list l.
Proof. reflexivity. Qed.

(** Unfolds the sum of the line counts of a list given by its elements. *)
Ltac sum_lines :=
  rewrite ?fmap_cons, ?fmap_nil, ?sum_list_cons; cbn [length];
  change (sum_list []) with 0.

Lemma lines_escape (f : string) : lines (csv.escape f) = lines f.
Proof.
  induction f as [|c f IH]; [done |]. cbn [csv.escape].
  destruct (Ascii.eqb_spec c csv.dquote) as [-> | Hne].
  - rewrite !lines_cons, IH. reflexivity.
  - rewrite !lines_cons, IH. reflexivity.
Qed.

Lemma lines_field (f : string) : lines (csv.field f) = lines f.
Proof.
  unfold csv.field. destruct (csv.needs_quotes f); [| done].
  rewrite lines_cons, lines_app, lines_escape.
  change (lines (String csv.dquote "")) with 0.
  change (csv.dquote =? csv.LF)%char with false. cbv iota. lia.
Qed.

Lemma lines_join (l : list string) :
  lines (py.join "," l) = sum_list (lines <$> l).
Proof.
  induction l as [|x l IH]; [done |].
  destruct l as [|y l]; [sum_lines; cbn [py.join]; lia |].
  change (py.join "," (x :: y :: l)) with (x +:+ "," +:+ py.join "," (y :: l)).
  rewrite !lines_app, IH. change (lines ",") with 0. sum_lines. lia.
Qed.

Lemma lines_writerow (l : list string) :
  lines (csv.writerow l) = S (sum_list (lines <$> l)).
Proof.
  assert (Hgen : lines (py.join "," (csv.field <$> l) +:+ csv.lineterminator)
                 = S (sum_list (lines <$> l))).
  { rewrite lines_app, lines_join, <- list_fmap_compose.
    assert (Heq : lines ∘ csv.field <$> l = lines <$> l).
    { apply list_fmap_ext. intros _ f _. apply lines_field. }
    rewrite Heq. change (lines csv.lineterminator) with 1. lia. }
  unfold csv.writerow. destruct l as [|[|c f] [|y l]]; exact Hgen.
Qed.

Lemma lines_uint (u : Decimal.uint) : lines (NilEmpty.string_of_uint u) = 0.
Proof.
  induction u; cbn [NilEmpty.string_of_uint]; [done | ..];
    rewrite lines_cons, IHu; reflexivity.
Qed.

Lemma lines_str (z : Z) : lines (py.str z) = 0.
Proof.
  unfold py.str, NilZero.string_of_int, NilZero.string_of_uint.
  destruct (Z.to_int z) as [u | u].
  - destruct u; [done | ..]; apply (lines_uint _).
  - rewrite lines_cons. change (("-" =? csv.LF)%char) with false. cbv iota.
    destruct u; [done | ..]; apply (lines_uint _).
Qed.

Lemma lines_zero_pad (n : nat) (t : string) : lines (py.zero_pad n t) = lines t.
Proof.
  unfold py.zero_pad. rewrite lines_app.
  induction (n - String.length t) as [|k IH]; [done |].
  cbn [repeat string_of_list_ascii]. rewrite lines_cons.
  change (("0" =? csv.LF)%char) with false. cbv iota. exact IH.
Qed.

Lemma lines_isoformat (d : datetime.date) : lines (datetime.isoformat d) = 0.
Proof.
  unfold datetime.isoformat.
  rewrite !lines_app, !lines_zero_pad, !lines_str. reflexivity.
Qed.

Lemma lines_exported_values (r : Job.t) :
  sum_list (lines <$> exported_values r) = line_feeds r.
Proof.
  unfold exported_values, line_feeds. sum_lines. rewrite lines_str.
  destruct (Job.deadline r) as [d|]; cbn [from_option];
    [rewrite lines_isoformat | change (lines "") with 0]; lia.
Qed.

Lemma lines_concat (l : list string) :
  lines (String.concat "" l) = sum_list (lines <$> l).
Proof.
  induction l as [|x l IH]; [done |].
  rewrite concat_cons, lines_app, IH. sum_lines. reflexivity.
Qed.

Lemma lines_export_text (rows : list Job.t) :
  lines (export_text rows) = S (length rows) + sum_list (line_feeds <$> rows).
Proof.
  rewrite export_text_eq, lines_app, lines_writerow, lines_concat.
  change (sum_list (lines <$> cli.csv_header)) with 0.
  induction rows as [|r rows IH]; [done |].
  sum_lines. rewrite lines_writerow, lines_exported_values. lia.
Qed.

(** *** The form of a date *)

Lemma digits_in_range (n : nat) (lo len : Z) :
  forallb (fun z => digits_only n (py.zero_pad n (py.str z))) (seqZ lo len) = true ->
  forall z, (lo <= z < lo + len)%Z -> digits_only n (py.zero_pad n (py.str z)) = true.
Proof.
  intros Hall z Hz. rewrite forallb_forall in Hall. apply Hall.
  apply list_elem_of_In, elem_of_seqZ. lia.
Qed.

Lemma year_digits (y : Z) :
  (1 <= y <= 9999)%Z -> digits_only 4 (py.zero_pad 4 (py.str y)) = true.
Proof.
  intros Hy. apply (digits_in_range 4 1 9999); [by vm_compute | lia].
Qed.

Lemma two_digits (z : Z) :
  (1 <= z <= 31)%Z -> digits_only 2 (py.zero_pad 2 (py.str z)) = true.
Proof.
  intros Hz. apply (digits_in_range 2 1 31); [by vm_compute | lia].
Qed.

Lemma iso_shape_parts (a b c : string) :
  digits_only 4 a = true -> digits_only 2 b = true -> digits_only 2 c = true ->
  iso_shape (a +:+ "-" +:+ b +:+ "-" +:+ c) = true.
Proof.
  unfold digits_only. rewrite !andb_true_iff, !Nat.eqb_eq.
  intros [Ha Da] [Hb Db] [Hc Dc].
  destruct a as [|a1 [|a2 [|a3 [|a4 [|? ?]]]]]; try discriminate Ha.
  destruct b as [|b1 [|b2 [|? ?]]]; try discriminate Hb.
  destruct c as [|c1 [|c2 [|? ?]]]; try discriminate Hc.
  cbn in Da, Db, Dc.
  repeat match goal with
         | H : _ && _ = true |- _ => apply andb_true_iff in H as [? ?]
         end.
  repeat (rewrite ?append_cons, ?append_nil_l).
  unfold iso_shape. cbn [list_ascii_of_string forallb].
  repeat match goal with
         | H : is_digit _ = true |- _ => rewrite H; clear H
         end.
  reflexivity.
Qed.

Lemma days_in_month_le (y m : Z) : (datetime.days_in_month y m <= 31)%Z.
Proof.
  unfold datetime.days_in_month.
  repeat match goal with |- context [if ?b then _ else _] => destruct b end; lia.
Qed.

(** A valid date is written as four, two and two digits with hyphens. *)
Lemma isoformat_shape (d : datetime.date) :
  valid_date d -> iso_shape (datetime.isoformat d) = true.
Proof.
  unfold valid_date, datetime.make. intros Hv.
  destruct (_ && _) eqn:E in Hv; [clear Hv | discriminate].
  repeat (apply andb_true_iff in E as [E ?]).
  pose proof (days_in_month_le (datetime.year d) (datetime.month d)).
  unfold datetime.isoformat.
  apply iso_shape_parts; [apply year_digits | apply two_digits ..]; lia.
Qed.

(** *** Reading the file back *)

Lemma feed_app (r : csv.Reader) (a b : string) :
  csv.feed r (a +:+ b) = csv.feed (csv.feed r a) b.
Proof.
  revert r. induction a as [|c a IH]; intros r; [done |].
  rewrite append_cons. cbn [csv.feed]. apply IH.
Qed.

Lemma special_false (c : ascii) :
  csv.special c = false ->
  Ascii.eqb c "," = false /\ Ascii.eqb c csv.dquote = false /\ csv.newline c = false.
Proof.
  unfold csv.special, csv.newline. rewrite !orb_false_iff. tauto.
Qed.

Lemma snoc_char (acc : string) (c : ascii) (f : string) :
  (acc +:+ String c "") +:+ f = acc +:+ String c f.
Proof. by rewrite append_assoc. Qed.

Lemma feed_escape (f acc : string) (row : list string) (out : list (list string)) :
  csv.feed (csv.MkReader csv.InQuoted acc row out) (csv.escape f)
  = csv.MkReader csv.InQuoted (acc +:+ f) row out.
Proof.
  revert acc. induction f as [|c f IH]; intros acc.
  - cbn. by rewrite append_nil_r.
  - cbn [csv.escape]. destruct (Ascii.eqb c csv.dquote) eqn:E.
    + apply Ascii.eqb_eq in E as ->. cbn [csv.feed].
      unfold csv.step at 2. cbn [csv.mode]. rewrite Ascii.eqb_refl.
      unfold csv.step at 1. cbn [csv.mode]. rewrite Ascii.eqb_refl.
      unfold csv.add_char. cbn [csv.cur csv.row csv.out].
      rewrite IH. by rewrite snoc_char.
    + cbn [csv.feed]. unfold csv.step at 1. cbn [csv.mode]. rewrite E.
      unfold csv.add_char. cbn [csv.cur csv.row csv.out].
      rewrite IH. by rewrite snoc_char.
Qed.

Lemma feed_plain (f acc : string) (row : list string) (out : list (list string)) :
  csv.needs_quotes f = false ->
  csv.feed (csv.MkReader csv.InField acc row out) f
  = csv.MkReader csv.InField (acc +:+ f) row out.
Proof.
  revert acc. induction f as [|c f IH]; intros acc Hq.
  - cbn. by rewrite append_nil_r.
  - change (csv.needs_quotes (String c f))
      with (csv.special c || csv.needs_quotes f) in Hq.
    apply orb_false_iff in Hq as [Hc Hf].
    apply special_false in Hc as (Hcomma & _ & Hnl).
    cbn [csv.feed]. unfold csv.step at 1. cbn [csv.mode]. rewrite Hnl, Hcomma.
    unfold csv.add_char. cbn [csv.cur csv.row csv.out].
    rewrite (IH _ Hf). by rewrite snoc_char.
Qed.

Lemma feed_field (f : string) (row : list string) (out : list (list string)) :
  csv.feed (csv.MkReader csv.StartField "" row out) (csv.field f)
  = after_field f row out.
Proof.
  unfold csv.field, after_field. destruct (csv.needs_quotes f) eqn:Hq.
  - cbn [csv.feed].
    change (csv.step (csv.MkReader csv.StartField "" row out) csv.dquote)
      with (csv.MkReader csv.InQuoted "" row out).
    rewrite feed_app, feed_escape. reflexivity.
  - destruct f as [|c f]; [reflexivity |].
    change (csv.needs_quotes (String c f))
      with (csv.special c || csv.needs_quotes f) in Hq.
    apply orb_false_iff in Hq as [Hc Hf].
    apply special_false in Hc as (Hcomma & Hdq & Hnl).
    cbn [csv.feed]. unfold csv.step at 1, csv.step_field. cbn [csv.mode].
    rewrite Hnl, Hdq, Hcomma. unfold csv.add_char. cbn [csv.cur csv.row csv.out].
    by rewrite (feed_plain f _ row out Hf).
Qed.

Lemma after_field_comma (f : string) (row : list string) (out : list (list string)) :
  csv.step (after_field f row out) "," = csv.MkReader csv.StartField "" (row ++ [f]) out.
Proof.
  unfold after_field. destruct (csv.needs_quotes f); [reflexivity |].
  by destruct f.
Qed.

Lemma after_field_cr (f : string) (row : list string) (out : list (list string)) :
  csv.step (after_field f row out) csv.CR
  = csv.MkReader csv.AfterCR "" [] (out ++ [row ++ [f]]).
Proof.
  unfold after_field. destruct (csv.needs_quotes f); [reflexivity |].
  by destruct f.
Qed.

Lemma feed_join (l row : list string) (out : list (list string)) :
  l <> [] ->
  csv.feed (csv.MkReader csv.StartField "" row out)
    (py.join "," (csv.field <$> l) +:+ String csv.CR "")
  = csv.MkReader csv.AfterCR "" [] (out ++ [row ++ l]).
Proof.
  revert row. induction l as [|f l IH]; intros row Hne; [done |].
  destruct l as [|y l].
  - cbn [fmap list_fmap py.join]. rewrite feed_app, feed_field. cbn [csv.feed].
    apply after_field_cr.
  - change (py.join "," (csv.field <$> f :: y :: l))
      with (csv.field f +:+ "," +:+ py.join "," (csv.field <$> y :: l)).
    rewrite append_assoc, feed_app, feed_field, append_assoc.
    rewrite append_cons, append_nil_l. cbn [csv.feed].
    rewrite after_field_comma, IH by done. by rewrite <- app_assoc.
Qed.

(** A record that is not the single empty field starts with a character
    that is no line end. *)
Lemma join_first (l : list string) (rest : string) :
  l <> [] -> l <> [""] ->
  exists c t, py.join "," (csv.field <$> l) +:+ rest = String c t
              /\ csv.newline c = false.
Proof.
  intros Hne Hne'. destruct l as [|f l]; [done |].
  assert (Hf : f <> "" ->
               exists c t, csv.field f = String c t /\ csv.newline c = false).
  { intros Hf. unfold csv.field. destruct (csv.needs_quotes f) eqn:Hq.
    - eexists _, _. split; reflexivity.
    - destruct f as [|c f]; [done |].
      change (csv.needs_quotes (String c f))
        with (csv.special c || csv.needs_quotes f) in Hq.
      apply orb_false_iff in Hq as [Hc _].
      apply special_false in Hc as (_ & _ & Hnl). by eexists _, _. }
  destruct l as [|y l].
  - cbn [fmap list_fmap py.join].
    destruct Hf as (c & t & -> & Hnl); [congruence |].
    rewrite append_cons. by eexists _, _.
  - change (py.join "," (csv.field <$> f :: y :: l))
      with (csv.field f +:+ "," +:+ py.join "," (csv.field <$> y :: l)).
    destruct f as [|c f].
    + eexists _, _. split; reflexivity.
    + destruct Hf as (c' & t & -> & Hnl); [done |].
      rewrite !append_cons. by eexists _, _.
Qed.

Lemma feed_writerow (l : list string) (out : list (list string)) :
  l <> [] ->
  csv.feed (csv.MkReader csv.StartRecord "" [] out) (csv.writerow l)
  = csv.MkReader csv.StartRecord "" [] (out ++ [l]).
Proof.
  intros Hne.
  destruct (decide (l = [""])) as [-> | Hne']; [reflexivity |].
  assert (Hrow : csv.writerow l
                 = (py.join "," (csv.field <$> l) +:+ String csv.CR "")
                   +:+ String csv.LF "").
  { rewrite append_assoc. unfold csv.writerow.
    destruct l as [|[|c f] [|y l]]; done. }
  rewrite Hrow, feed_app.
  destruct (join_first l (String csv.CR "") Hne Hne') as (c & t & Htext & Hnl).
  assert (Hstart : csv.feed (csv.MkReader csv.StartRecord "" [] out)
                     (py.join "," (csv.field <$> l) +:+ String csv.CR "")
                   = csv.feed (csv.MkReader csv.StartField "" [] out)
                       (py.join "," (csv.field <$> l) +:+ String csv.CR "")).
  { rewrite Htext. cbn [csv.feed]. unfold csv.step, csv.step_record.
    cbn [csv.mode]. by rewrite Hnl. }
  rewrite Hstart, feed_join by done. reflexivity.
Qed.

Lemma feed_records (recs out : list (list string)) :
  Forall (fun l => l <> []) recs ->
  csv.feed (csv.MkReader csv.StartRecord "" [] out)
    (String.concat "" (csv.writerow <$> recs))
  = csv.MkReader csv.StartRecord "" [] (out ++ recs).
Proof.
  intros Hall. revert out.
  induction Hall as [|l recs Hl _ IH]; intros out.
  - cbn. by rewrite app_nil_r.
  - rewrite fmap_cons, concat_cons, feed_app, (feed_writerow l out Hl), IH.
    by rewrite <- app_assoc.
Qed.

(** What the writer wrote, the reader reads: records and values. *)
Lemma reader_writerows (recs : list (list string)) :
  Forall (fun l => l <> []) recs ->
  csv.reader (String.concat "" (csv.writerow <$> recs)) = recs.
Proof.
  intros Hall. unfold csv.reader. by rewrite (feed_records recs [] Hall).
Qed.

Lemma export_records_nonempty (rows : list Job.t) :
  Forall (fun l => l <> []) (export_records rows).
Proof.
  unfold export_records. constructor; [done |].
  apply Forall_fmap, Forall_forall. by intros r _.
Qed.

(** C8, counterexample.  With the single job 3 stored, whose notes hold a
    line feed, the exported file has three lines, not two: the record of
    the job spans two of them. *)
Lemma export_line_count_counterexample :
  (exists text,
     files (cli.export (Some "out.csv") (stored [job3])).1 !! "out.csv" = Some text /\
     lines text = 3 /\ S (length [job3]) = 2) /\
  ~ export_has_one_line_per_job.
Proof.
  assert (Hrun : files (cli.export (Some "out.csv") (stored [job3])).1 !! "out.csv"
                 = Some (export_text [job3])).
  { rewrite (export_rows (stored [job3]) (Some "out.csv") [job3] eq_refl); [| done].
    cbn [fst files default]. apply lookup_insert_eq. }
  split.
  - exists (export_text [job3]). split; [exact Hrun |]. split; reflexivity.
  - intros Hclaim.
    destruct (Hclaim (stored [job3]) [job3] "out.csv" eq_refl) as (text & Hfile & Hlines);
      [done |].
    rewrite Hrun in Hfile. injection Hfile as <-. vm_compute in Hlines. discriminate.
Qed.

(** C8, amended.  On an empty table [export] writes no file, prints that
    there is nothing to export and returns.  On N stored jobs it writes, at
    the given path, the N+1 records of the export in stored order (the
    header, then per job its id, title, company, status, deadline, link and
    notes, the empty string standing for an absent value and a valid
    deadline written as YYYY-MM-DD), each written by the CSV writer and
    ended by CR LF; the CSV reader reads those N+1 records and values back
    from the file.  The file has N+1 lines plus one for every line feed
    inside a stored text value: exactly N+1 lines when no stored value holds
    a line feed. *)
Theorem export_writes_header_and_rows
    (s : State) (filename : option string) (rows : list Job.t) :
  default [] (disk s) = rows ->
  (rows = [] ->
   exists s',
     succeeds (cli.export filename) s s' /\ files s' = files s /\
     console s' = console s ++ [rich.Text "[yellow]No jobs to export[/yellow]"]) /\
  (rows <> [] ->
   exists s' text,
     succeeds (cli.export filename) s s' /\
     files s' = <[default "jobs_export.csv" filename := text]> (files s) /\
     text = String.concat "" (csv.writerow <$> export_records rows) /\
     export_records rows
     = ["id"; "title"; "company"; "status"; "deadline"; "link"; "notes"]
       :: (exported_values <$> rows) /\
     length (export_records rows) = S (length rows) /\
     csv.reader text = export_records rows /\
     (forall r d, r ∈ rows -> Job.deadline r = Some d -> valid_date d ->
        exported_values r !! 4 = Some (datetime.isoformat d) /\
        iso_shape (datetime.isoformat d) = true) /\
     lines text = S (length rows) + sum_list (line_feeds <$> rows) /\
     (Forall (fun r => line_feeds r = 0) rows -> lines text = S (length rows))).
Proof.
  intros Hrows. split.
  - intros ->. eexists. split; [apply (export_empty s filename Hrows) |]. done.
  - intros Hne. eexists _, _.
    split; [apply (export_rows s filename rows Hrows Hne) |].
    cbn [files]. split; [reflexivity |]. split; [reflexivity |].
    split; [reflexivity |].
    split; [unfold export_records; cbn; by rewrite length_fmap |].
    split; [apply reader_writerows, export_records_nonempty |].
    split.
    { intros r d _ Hd Hv. split; [| by apply isoformat_shape].
      unfold exported_values. by rewrite Hd. }
    split; [apply lines_export_text |].
    intros Hall. rewrite lines_export_text.
    rewrite (sum_list_fmap_same 0 rows line_feeds Hall). lia.
Qed.

Lemma export_writes_header_and_rows_witness :
  (exists s',
     succeeds (cli.export None) fresh s' /\ files s' = files fresh) /\
  (exists s' text,
     succeeds (cli.export None) (stored [job1; job2]) s' /\
     files s' !! "jobs_export.csv" = Some text /\
     csv.reader text = export_records [job1; job2] /\
     lines text = 3).
Proof.
  destruct (export_writes_header_and_rows fresh None [] eq_refl) as [H0 _].
  destruct (export_writes_header_and_rows (stored [job1; job2]) None
              [job1; job2] eq_refl) as [_ H2].
  split.
  - destruct (H0 eq_refl) as (s' & Hrun & Hfiles & _). by exists s'.
  - destruct H2 as (s' & text & Hrun & Hfiles & _ & _ & _ & Hread & _ & _ & Hlines);
      [done |].
    exists s', text. split; [exact Hrun |]. split; [| split].
    + rewrite Hfiles. apply lookup_insert_eq.
    + exact Hread.
    + apply Hlines. repeat constructor.
Defined.

(** The text of the example file, byte for byte. *)
Example export_text_example :
  export_text [job1; job2; job3]
  = "id,title,company,status,deadline,link,notes" +:+ csv.lineterminator
    +:+ "1,Backend Engineer,Acme,applied,,," +:+ csv.lineterminator
    +:+ "2,Frontend,Beta,interested,2025-02-28,http://beta.example,call back"
    +:+ csv.lineterminator
    +:+ "3,Data Engineer,Gamma,offer,,," +:+ String csv.dquote "first"
    +:+ String csv.LF "second" +:+ String csv.dquote csv.lineterminator.
Proof. reflexivity. Qed.

(** ** The first run: which commands create the table *)

Lemma add_creates_table (int : string -> option Z) (s : State)
    (title company : string) (link deadline notes status : option string) :
  disk (cli.add int title company link deadline notes status s).1 <> None.
Proof.
  destruct (cli._parse_date int (typer.Option "" deadline)) as [d | e] eqn:E.
  - by rewrite (add_parsed int s title company link deadline notes status d E).
  - by rewrite (add_malformed int s title company link deadline notes status e E).
Qed.

Lemma list_creates_table (s : State) (status : option string) :
  disk (cli.list status s).1 = Some (default [] (disk s)).
Proof. by rewrite list_run. Qed.

Lemma search_creates_table (lower : string -> string) (s : State) (keyword : string) :
  disk (cli.search lower keyword s).1 = Some (default [] (disk s)).
Proof. by rewrite search_run. Qed.

Lemma export_creates_table (s : State) (filename : option string) :
  disk (cli.export filename s).1 = Some (default [] (disk s)).
Proof.
  destruct (default [] (disk s)) as [|r rows] eqn:E.
  - by rewrite (export_empty s filename E).
  - by rewrite (export_rows s filename (r :: rows) E).
Qed.

Lemma session_without_table (s : State) (i : Z) :
  disk s = None ->
  cli.detail i s = (set_pending [] s, Raise OperationalError) /\
  cli.remove i s = (set_pending [] s, Raise OperationalError).
Proof. intros Hd. run. rewrite Hd. by split. Qed.

(** C9, at the failing input.  On a first run, before any table exists,
    [detail], [remove] and [update] (with a valid status) do not create
    the table: the lookup raises OperationalError and the process ends with
    status 1, the store still without a table; [list], run from the same
    state, creates the table and returns. *)
Theorem first_run_of_detail_remove_update_raises :
  (forall i, cli.detail i fresh = (fresh, Raise OperationalError)) /\
  (forall i, cli.remove i fresh = (fresh, Raise OperationalError)) /\
  (forall i, cli.update i "applied" fresh = (fresh, Raise OperationalError)) /\
  exit_code (cli.detail 1 fresh).2 = 1%Z /\
  ~ fails_with NotFound (cli.detail 1) fresh /\
  cli.list None fresh
  = (MkState (Some []) ∅ [rich.Grid (listing "Jobs" [])] [], Ret tt).
Proof.
  split; [| split; [| split; [| split; [| split]]]]; try reflexivity.
  intros (s' & r & p & Hrun & _ & _ & Hcon & _).
  injection Hrun as <- <-. by destruct (console fresh).
Qed.

(** ** The session of the specification, end to end *)

(** [add "Backend Engineer" "Acme" --status applied] gives id 1; [detail 1]
    shows the status applied; after [update 1 interview] it shows
    interview; after [remove 1], [detail 1] prints that there is no such job
    and exits with status 1. *)
Example end_to_end :
  let s1 := (cli.add ascii_py.int "Backend Engineer" "Acme" None None None
               (Some "applied") fresh).1 in
  let s2 := (cli.update 1 "interview" s1).1 in
  let s3 := (cli.remove 1 s2).1 in
  disk s1 = Some [job1] /\
  (exists t, console (cli.detail 1 s1).1 = console s1 ++ [rich.Grid t]
             /\ ["Status"; "applied"] ∈ rich.rows t) /\
  disk s2 = Some [Job.set_status "interview" job1] /\
  (exists t, console (cli.detail 1 s2).1 = console s2 ++ [rich.Grid t]
             /\ ["Status"; "interview"] ∈ rich.rows t) /\
  disk s3 = Some [] /\
  cli.detail 1 s3
  = (set_console (console s3 ++ [msg_job_not_found]) s3, Raise (Exit 1)).
Proof.
  cbn zeta. split; [reflexivity |]. split.
  { eexists. split; [reflexivity |]. cbn. set_solver. }
  split; [reflexivity |]. split.
  { eexists. split; [reflexivity |]. cbn. set_solver. }
  split; reflexivity.
Qed.

(** * Further properties *)

(** ** _parse_date *)

Lemma make_valid (y m d : Z) (dt : datetime.date) :
  datetime.make y m d = Some dt -> valid_date dt.
Proof.
  unfold valid_date. intros H. pose proof H as H'. unfold datetime.make in H'.
  destruct (_ && _) in H'; [| discriminate]. injection H' as <-. exact H.
Qed.

Lemma split_length (sep : ascii) (t : string) :
  length (py.split sep t) = S (count_char sep t).
Proof.
  induction t as [|c t IH]; [done |]. cbn [py.split count_char].
  destruct (Ascii.eqb c sep); cbn [length]; [by rewrite IH |].
  destruct (py.split sep t) as [|h l]; [discriminate IH |]. exact IH.
Qed.

Section parse_date_facts.

Variable int : string -> option Z.

Lemma parse_date_cases (t : string) (d : option datetime.date) :
  cli._parse_date int t = Ret d ->
  (t = "" /\ d = None) \/ (t <> "" /\ exists dt, d = Some dt /\ valid_date dt).
Proof.
  unfold cli._parse_date. destruct t as [|c t]; cbn [py.truthy negb String.eqb].
  - intros [= <-]. by left.
  - intros H. right. split; [done |].
    destruct (int <$> py.split "-" (String c t))
      as [|[y|] [|[m|] [|[dd|] [|? ?]]]]; try discriminate H.
    destruct (datetime.make y m dd) as [dt|] eqn:E; [| discriminate H].
    injection H as <-. exists dt. split; [done |]. by apply (make_valid y m dd).
Qed.

(** A date is returned only for a non-empty text, and it is a date of the
    calendar (never a 30th of February); [None] is returned only for the
    empty text. *)
Theorem parse_date_returns_calendar_date (t : string) (d : option datetime.date) :
  cli._parse_date int t = Ret d ->
  (t = "" /\ d = None) \/ (t <> "" /\ exists dt, d = Some dt /\ valid_date dt).
Proof. apply parse_date_cases. Qed.

(** A non-empty text that does not hold exactly two hyphens is refused
    with ValueError, whatever its parts are. *)
Theorem parse_date_needs_two_hyphens (t : string) :
  t <> "" -> count_char "-" t <> 2 ->
  cli._parse_date int t = Raise ValueError.
Proof.
  intros Ht Hn. unfold cli._parse_date.
  destruct t as [|c t]; [done |]. cbn [py.truthy negb String.eqb].
  pose proof (split_length "-" (String c t)) as Hlen.
  rewrite <- (length_fmap int) in Hlen.
  destruct (int <$> py.split "-" (String c t))
    as [|[y|] [|[m|] [|[dd|] [|? ?]]]]; try reflexivity.
  cbn [length] in Hlen. lia.
Qed.

End parse_date_facts.

Lemma parse_date_returns_calendar_date_witness :
  ("2025-02-28" = "" /\ Some (datetime.Date 2025 2 28) = None) \/
  ("2025-02-28" <> "" /\
   exists dt, Some (datetime.Date 2025 2 28) = Some dt /\ valid_date dt).
Proof.
  apply (parse_date_returns_calendar_date ascii_py.int "2025-02-28").
  reflexivity.
Defined.

Lemma parse_date_needs_two_hyphens_witness :
  cli._parse_date ascii_py.int "2025/02/28" = Raise ValueError /\
  cli._parse_date ascii_py.int "2025-02" = Raise ValueError.
Proof.
  split.
  - apply (parse_date_needs_two_hyphens ascii_py.int "2025/02/28");
      [discriminate | cbn; lia].
  - apply (parse_date_needs_two_hyphens ascii_py.int "2025-02");
      [discriminate | cbn; lia].
Defined.

Lemma split_no_sep (sep : ascii) (t : string) :
  count_char sep t = 0 -> py.split sep t = [t].
Proof.
  induction t as [|c t IH]; [done |]. cbn [py.split count_char].
  destruct (Ascii.eqb c sep); [discriminate |].
  intros H. by rewrite IH.
Qed.

Lemma split_app_sep (sep : ascii) (a rest : string) :
  count_char sep a = 0 ->
  py.split sep (a +:+ String sep rest) = a :: py.split sep rest.
Proof.
  induction a as [|c a IH].
  - intros _. rewrite append_nil_l. cbn [py.split]. by rewrite Ascii.eqb_refl.
  - cbn [count_char]. rewrite append_cons. cbn [py.split].
    destruct (Ascii.eqb c sep); [discriminate |].
    intros H. by rewrite IH.
Qed.

Lemma digits_no_hyphen (n : nat) (t : string) :
  digits_only n t = true -> count_char "-" t = 0.
Proof.
  unfold digits_only. rewrite andb_true_iff. intros [_ H].
  induction t as [|c t IH]; [done |].
  cbn [list_ascii_of_string forallb] in H. apply andb_true_iff in H as [Hc Ht].
  cbn [count_char]. rewrite (IH Ht).
  destruct (Ascii.eqb_spec c "-") as [-> | _]; [discriminate Hc | done].
Qed.

Lemma digits_nonempty (n : nat) (t : string) :
  digits_only (S n) t = true -> py.truthy t = true.
Proof.
  unfold digits_only. rewrite andb_true_iff. intros [H _]. by destruct t.
Qed.

Lemma valid_date_ranges (d : datetime.date) :
  valid_date d ->
  (1 <= datetime.year d <= 9999)%Z /\ (1 <= datetime.month d <= 31)%Z /\
  (1 <= datetime.day d <= 31)%Z.
Proof.
  unfold valid_date, datetime.make. intros Hv.
  destruct (_ && _) eqn:E in Hv; [clear Hv | discriminate].
  repeat (apply andb_true_iff in E as [E ?]).
  pose proof (days_in_month_le (datetime.year d) (datetime.month d)). lia.
Qed.

(** When [int] reads the numbers that [isoformat] writes, the text of a
    valid date parses back to that date. *)
Lemma parse_date_isoformat (int : string -> option Z) (d : datetime.date) :
  reads_date_parts int -> valid_date d ->
  cli._parse_date int (datetime.isoformat d) = Ret (Some d).
Proof.
  intros [Hy Hz] Hv. destruct (valid_date_ranges d Hv) as (Ry & Rm & Rd).
  pose proof (year_digits _ Ry) as Da. pose proof (two_digits _ Rm) as Db.
  pose proof (two_digits _ Rd) as Dc.
  pose proof (Hy _ Ry) as Ia. pose proof (Hz _ Rm) as Ib. pose proof (Hz _ Rd) as Ic.
  unfold datetime.isoformat.
  set (a := py.zero_pad 4 (py.str (datetime.year d))) in *.
  set (b := py.zero_pad 2 (py.str (datetime.month d))) in *.
  set (c := py.zero_pad 2 (py.str (datetime.day d))) in *.
  unfold cli._parse_date.
  assert (Ht : py.truthy (a +:+ "-" +:+ b +:+ "-" +:+ c) = true).
  { pose proof (digits_nonempty _ _ Da) as Hne. by destruct a. }
  rewrite Ht. cbn [negb].
  rewrite !(append_cons "-"), !append_nil_l.
  rewrite (split_app_sep "-" a) by apply (digits_no_hyphen _ _ Da).
  rewrite (split_app_sep "-" b) by apply (digits_no_hyphen _ _ Db).
  rewrite (split_no_sep "-" c) by apply (digits_no_hyphen _ _ Dc).
  cbn [fmap list_fmap]. rewrite Ia, Ib, Ic.
  unfold valid_date in Hv. by rewrite Hv.
Qed.

(** The deadline field of an exported record, given back to
    [add --deadline], is read as the stored deadline: the empty field as no
    deadline, a date as the same date. *)
Theorem exported_deadline_parses_back (int : string -> option Z)
    (deadline : option datetime.date) :
  reads_date_parts int -> from_option valid_date True deadline ->
  cli._parse_date int (from_option datetime.isoformat "" deadline) = Ret deadline.
Proof.
  intros Hint Hv. destruct deadline as [d|]; [| reflexivity].
  by apply parse_date_isoformat.
Qed.

Lemma ascii_int_reads_date_parts : reads_date_parts ascii_py.int.
Proof.
  assert (Hall : forall n lo len,
            forallb (fun z =>
                       match ascii_py.int (py.zero_pad n (py.str z)) with
                       | Some z' => (z' =? z)%Z
                       | None => false
                       end) (seqZ lo len) = true ->
            forall z, (lo <= z < lo + len)%Z ->
                      ascii_py.int (py.zero_pad n (py.str z)) = Some z).
  { intros n lo len H z Hz. rewrite forallb_forall in H.
    assert (Hin : In z (seqZ lo len)) by (apply list_elem_of_In, elem_of_seqZ; lia).
    specialize (H z Hin).
    destruct (ascii_py.int _) as [z'|]; [| discriminate].
    f_equal. lia. }
  split; intros z Hz.
  - apply (Hall 4 1%Z 9999%Z); [by vm_compute | lia].
  - apply (Hall 2 1%Z 31%Z); [by vm_compute | lia].
Qed.

Lemma exported_deadline_parses_back_witness :
  cli._parse_date ascii_py.int
    (from_option datetime.isoformat "" (Some (datetime.Date 2024 2 29)))
  = Ret (Some (datetime.Date 2024 2 29)).
Proof.
  apply (exported_deadline_parses_back ascii_py.int
           (Some (datetime.Date 2024 2 29))).
  - exact ascii_int_reads_date_parts.
  - reflexivity.
Defined.

(** ** Every command, case by case *)

Lemma init_run (s : State) :
  cli.init s
  = (MkState (Some (rows_of s)) (files s)
       (console s ++ [rich.Text "[green]Database ready[/green]"]) (pending s),
     Ret tt).
Proof. reflexivity. Qed.

Lemma update_run (s : State) (i : Z) (st : string) :
  cli.update i st s
  = if py.mem st cli.valid then
      match disk s with
      | None => (set_pending [] s, Raise OperationalError)
      | Some rows =>
          match List.find (fun r => (Job.id r =? i)%Z) rows with
          | None =>
              if models.int64 i then
                (MkState (Some rows) (files s) (console s ++ [msg_not_found]) [],
                 Raise (Exit 1))
              else
                (MkState (Some rows) (files s) (console s) [], Raise OverflowError)
          | Some _ =>
              (MkState (Some (with_status i st rows)) (files s)
                 (console s ++
                    [rich.Text ("[yellow]Updated[/yellow] " +:+ py.str i
                                +:+ " -> " +:+ st)]) [],
               Ret tt)
          end
      end
    else
      (MkState (disk s) (files s) (console s ++ [msg_invalid_status]) (pending s),
       Raise (Exit 1)).
Proof.
  destruct (py.mem st cli.valid) eqn:Hst.
  - apply mem_true in Hst. destruct (disk s) as [rows|] eqn:Hd.
    + destruct (List.find _ rows) as [j|] eqn:Hj.
      * apply (update_present s rows i st j Hst Hd Hj).
      * pose proof (proj1 (find_id_None rows i) Hj) as Hno.
      destruct (models.int64 i) eqn:Hi.
        -- apply (update_absent s rows i st Hst Hd Hno Hi).
        -- apply (update_overflow s rows i st Hst Hd Hno Hi).
    + apply mem_true in Hst. run. rewrite Hst. cbn. by rewrite Hd.
  - apply update_invalid. by apply mem_false.
Qed.

Lemma remove_run (s : State) (i : Z) :
  cli.remove i s
  = match disk s with
    | None => (set_pending [] s, Raise OperationalError)
    | Some rows =>
        match List.find (fun r => (Job.id r =? i)%Z) rows with
        | None =>
            if models.int64 i then
              (MkState (Some rows) (files s) (console s ++ [msg_not_found]) [],
               Raise (Exit 1))
            else
              (MkState (Some rows) (files s) (console s) [], Raise OverflowError)
        | Some _ =>
            (MkState (Some (List.filter (fun r => negb (Job.id r =? i)%Z) rows))
               (files s)
               (console s ++ [rich.Text ("[red]Removed[/red] " +:+ py.str i)]) [],
             Ret tt)
        end
    end.
Proof.
  destruct (disk s) as [rows|] eqn:Hd.
  - destruct (List.find _ rows) as [j|] eqn:Hj.
    + apply (remove_present s rows i j Hd Hj).
    + pose proof (proj1 (find_id_None rows i) Hj) as Hno.
      destruct (models.int64 i) eqn:Hi.
      * apply (remove_absent s rows i Hd Hno Hi).
      * apply (lookup_overflow s rows i Hd Hno Hi).
  - by apply session_without_table.
Qed.

Lemma detail_run (s : State) (i : Z) :
  cli.detail i s
  = match disk s with
    | None => (set_pending [] s, Raise OperationalError)
    | Some rows =>
        match List.find (fun r => (Job.id r =? i)%Z) rows with
        | None =>
            if models.int64 i then
              (MkState (Some rows) (files s) (console s ++ [msg_job_not_found]) [],
               Raise (Exit 1))
            else
              (MkState (Some rows) (files s) (console s) [], Raise OverflowError)
        | Some j =>
            (MkState (Some rows) (files s)
               (console s ++ [rich.Grid (detail_table j)]) [],
             Ret tt)
        end
    end.
Proof.
  destruct (disk s) as [rows|] eqn:Hd.
  - destruct (List.find _ rows) as [j|] eqn:Hj.
    + run. rewrite Hd. cbn. rewrite Hj. cbn.
      unfold detail_table. destruct (Job.deadline j); reflexivity.
    + pose proof (proj1 (find_id_None rows i) Hj) as Hno.
      destruct (models.int64 i) eqn:Hi.
      * apply (detail_absent s rows i Hd Hno Hi).
      * apply (lookup_overflow s rows i Hd Hno Hi).
  - by apply session_without_table.
Qed.

Lemma export_run (s : State) (filename : option string) :
  cli.export filename s
  = match rows_of s with
    | [] =>
        (MkState (Some []) (files s)
           (console s ++ [rich.Text "[yellow]No jobs to export[/yellow]"]) [],
         Ret tt)
    | rows =>
        (MkState (Some rows)
           (<[default "jobs_export.csv" filename := export_text rows]> (files s))
           (console s ++
              [rich.Text ("[green]Exported " +:+ py.str (Z.of_nat (length rows))
                          +:+ " jobs to " +:+ default "jobs_export.csv" filename
                          +:+ "[/green]")]) [],
         Ret tt)
    end.
Proof.
  destruct (rows_of s) as [|r rows] eqn:E.
  - by apply export_empty.
  - by apply export_rows.
Qed.

Lemma with_status_absent (i : Z) (st : string) (rows : list Job.t) :
  List.find (fun r => (Job.id r =? i)%Z) rows = None -> with_status i st rows = rows.
Proof.
  intros H. unfold with_status. rewrite <- (list_fmap_id rows) at 2.
  apply list_fmap_ext. intros k r Hr.
  assert (Hne : Job.id r <> i).
  { apply (proj1 (find_id_None rows i) H). apply list_elem_of_lookup. eauto. }
  by destruct (Z.eqb_spec (Job.id r) i).
Qed.

Lemma without_absent (i : Z) (rows : list Job.t) :
  List.find (fun r => (Job.id r =? i)%Z) rows = None ->
  List.filter (fun r => negb (Job.id r =? i)%Z) rows = rows.
Proof.
  intros H. apply forallb_filter_id, forallb_forall. intros r Hr.
  apply list_elem_of_In in Hr.
  pose proof (proj1 (find_id_None rows i) H r Hr).
  by destruct (Z.eqb_spec (Job.id r) i).
Qed.

(** The rows after a run are [effect] of the rows before: the program,
    seen from the table, is that function. *)
Lemma app_effect (lower : string -> string) (int : string -> option Z)
    (c : Invocation) (s : State) :
  rows_of (app lower int c s).1 = effect int c (rows_of s).
Proof.
  destruct c as [| title company link deadline notes status | status | i st
                 | i | i | fn | kw]; cbn [app effect].
  - reflexivity.
  - destruct (cli._parse_date int (typer.Option "" deadline)) as [d|e] eqn:E.
    + by rewrite (add_parsed int s title company link deadline notes status d E).
    + by rewrite (add_malformed int s title company link deadline notes status e E).
  - by rewrite list_run.
  - rewrite update_run. unfold rows_of.
    destruct (py.mem st cli.valid); [| done].
    destruct (disk s) as [rows|] eqn:Hd; [| cbn; by rewrite Hd].
    change (default [] (Some rows)) with rows.
    destruct (List.find _ rows) eqn:Hj; [done |].
    rewrite (with_status_absent i st rows Hj). by destruct (models.int64 i).
  - rewrite remove_run. unfold rows_of.
    destruct (disk s) as [rows|] eqn:Hd; [| cbn; by rewrite Hd].
    change (default [] (Some rows)) with rows.
    destruct (List.find _ rows) eqn:Hj; [done |].
    rewrite (without_absent i rows Hj). by destruct (models.int64 i).
  - rewrite detail_run. unfold rows_of.
    destruct (disk s) as [rows|] eqn:Hd; [| cbn; by rewrite Hd]. cbn.
    destruct (List.find _ rows); [done |]. by destruct (models.int64 i).
  - rewrite export_run. by destruct (rows_of s) eqn:E.
  - by rewrite search_run.
Qed.

(** ** What every sequence of runs keeps *)

Lemma foldr_max_ge (i : Z) (l : list Z) (x : Z) :
  x ∈ i :: l -> (x <= foldr Z.max i l)%Z.
Proof.
  induction l as [|a l IH]; cbn [foldr].
  - intros Hx. apply elem_of_cons in Hx as [-> | Hx]; [lia |].
    by apply elem_of_nil in Hx.
  - intros Hx. apply elem_of_cons in Hx as [-> | Hx].
    + pose proof (IH ltac:(by left)). lia.
    + apply elem_of_cons in Hx as [-> | Hx]; [lia |].
      pose proof (IH ltac:(by right)). lia.
Qed.

Lemma next_id_gt (rows : list Job.t) (r : Job.t) :
  r ∈ rows -> (Job.id r < models.next_id rows)%Z.
Proof.
  intros Hr. unfold models.next_id.
  assert (Hin : Job.id r ∈ Job.id <$> rows) by (by apply list_elem_of_fmap_2).
  destruct (Job.id <$> rows) as [|i l]; [by apply elem_of_nil in Hin |].
  pose proof (foldr_max_ge i l _ Hin). lia.
Qed.

Lemma next_id_pos (rows : list Job.t) :
  Forall (fun r => (1 <= Job.id r)%Z) rows -> (1 <= models.next_id rows)%Z.
Proof.
  intros Hall. destruct rows as [|r rows]; [done |].
  pose proof (next_id_gt (r :: rows) r ltac:(by left)).
  apply Forall_cons in Hall as [Hr _]. lia.
Qed.

Lemma or_none_not_empty (t : string) : py.or_none t <> Some "".
Proof. by destruct t. Qed.

Lemma with_status_ids (i : Z) (st : string) (rows : list Job.t) :
  Job.id <$> with_status i st rows = Job.id <$> rows.
Proof.
  unfold with_status. rewrite <- list_fmap_compose.
  apply list_fmap_ext. intros k r _. cbn.
  by destruct (Job.id r =? i)%Z.
Qed.

Lemma without_ids (i : Z) (rows : list Job.t) :
  NoDup (Job.id <$> rows) ->
  NoDup (Job.id <$> List.filter (fun r => negb (Job.id r =? i)%Z) rows).
Proof.
  induction rows as [|r rows IH]; [done |]. cbn [List.filter].
  rewrite fmap_cons, NoDup_cons. intros [Hr Hnd].
  destruct (negb (Job.id r =? i)%Z); [| by apply IH].
  rewrite fmap_cons, NoDup_cons. split; [| by apply IH].
  intros Hin. apply Hr. apply list_elem_of_fmap in Hin as (r' & Heq & Hr').
  apply elem_of_without in Hr' as [Hr' _].
  rewrite Heq. by apply list_elem_of_fmap_2.
Qed.

Lemma consistent_effect (int : string -> option Z) (c : Invocation)
    (rows : list Job.t) :
  consistent rows -> consistent (effect int c rows).
Proof.
  intros [Hnd Hall].
  destruct c as [| title company link deadline notes status | status | i st
                 | i | i | fn | kw]; cbn [effect]; try (by split).
  - destruct (cli._parse_date int (typer.Option "" deadline)) as [d|e] eqn:E;
      [| by split].
    assert (Hpos : (1 <= models.next_id rows)%Z).
    { apply next_id_pos. eapply Forall_impl; [exact Hall |]. by intros r [? _]. }
    split.
    + rewrite fmap_app. apply NoDup_app. split; [exact Hnd |]. split.
      * intros x Hx Hx'. cbn in Hx'. apply list_elem_of_singleton in Hx'. subst x.
        apply list_elem_of_fmap in Hx as (r & Heq & Hr).
        pose proof (next_id_gt rows r Hr). lia.
      * apply NoDup_singleton.
    + apply Forall_app. split; [exact Hall |]. apply Forall_singleton.
      unfold added_row, Job.new. cbn.
      split; [exact Hpos |]. split; [| split; apply or_none_not_empty].
      destruct (parse_date_cases int _ _ E)
        as [[_ ->] | (_ & dt & -> & Hv)]; done.
  - destruct (py.mem st cli.valid); [| by split].
    split; [by rewrite with_status_ids |].
    unfold with_status. apply Forall_fmap. eapply Forall_impl; [exact Hall |].
    intros r Hr. cbn. by destruct (Job.id r =? i)%Z.
  - split; [by apply without_ids |].
    apply Forall_forall. intros r Hr. apply elem_of_without in Hr as [Hr _].
    by apply (proj1 (Forall_forall _ _) Hall).
Qed.

Lemma runs_cons (lower : string -> string) (int : string -> option Z)
    (c : Invocation) (cs : list Invocation) (s : State) :
  runs lower int (c :: cs) s = runs lower int cs (app lower int c s).1.
Proof. reflexivity. Qed.

(** Whatever is run, in whatever order and whether it succeeds or fails, a
    consistent table stays consistent: keys distinct and positive, deadlines
    dates of the calendar, no empty link or note stored. *)
Theorem runs_keep_table_consistent (lower : string -> string)
    (int : string -> option Z) (cs : list Invocation) (s : State) :
  consistent (rows_of s) -> consistent (rows_of (runs lower int cs s)).
Proof.
  revert s. induction cs as [|c cs IH]; intros s Hs; [exact Hs |].
  rewrite runs_cons. apply IH. rewrite app_effect. by apply consistent_effect.
Qed.

Lemma runs_keep_table_consistent_witness :
  consistent
    (rows_of
       (runs ascii_py.lower ascii_py.int
          [ Add "Backend Engineer" "Acme" None (Some "2025-02-28") (Some "") None;
            Add "Frontend" "Beta" None (Some "2025-02-30") None None;
            Update 1 "offer"; Remove 1;
            Add "Data Engineer" "Gamma" (Some "") None None (Some "applied");
            Export None ]
          fresh)).
Proof.
  apply runs_keep_table_consistent. split; constructor.
Defined.

Lemma statuses_effect (int : string -> option Z) (c : Invocation)
    (rows : list Job.t) :
  keeps_statuses c -> statuses_valid rows -> statuses_valid (effect int c rows).
Proof.
  unfold statuses_valid. intros Hc Hall.
  destruct c as [| title company link deadline notes status | status | i st
                 | i | i | fn | kw]; cbn [effect]; try exact Hall.
  - destruct (cli._parse_date int (typer.Option "" deadline)); [| exact Hall].
    apply Forall_app. split; [exact Hall |]. apply Forall_singleton.
    unfold added_row, Job.new. cbn.
    destruct status as [st|]; [exact Hc | by apply mem_true].
  - destruct (py.mem st cli.valid) eqn:Hst; [| exact Hall].
    apply mem_true in Hst. unfold with_status. apply Forall_fmap.
    eapply Forall_impl; [exact Hall |]. intros r Hr. cbn.
    by destruct (Job.id r =? i)%Z.
  - apply Forall_forall. intros r Hr. apply elem_of_without in Hr as [Hr _].
    by apply (proj1 (Forall_forall _ _) Hall).
Qed.

(** The statuses stay among the five through every sequence of runs in
    which no [add] is given a status outside them: [update] never stores
    another status, and [add] is the only way one gets in. *)
Theorem runs_keep_statuses_valid (lower : string -> string)
    (int : string -> option Z) (cs : list Invocation) (s : State) :
  Forall keeps_statuses cs -> statuses_valid (rows_of s) ->
  statuses_valid (rows_of (runs lower int cs s)).
Proof.
  revert s. induction cs as [|c cs IH]; intros s Hcs Hs; [exact Hs |].
  apply Forall_cons in Hcs as [Hc Hcs].
  rewrite runs_cons. apply IH; [exact Hcs |].
  rewrite app_effect. by apply statuses_effect.
Qed.

Lemma runs_keep_statuses_valid_witness :
  statuses_valid
    (rows_of
       (runs ascii_py.lower ascii_py.int
          [ Add "Backend Engineer" "Acme" None None None None;
            Update 1 "done"; Update 1 "offer";
            Add "Frontend" "Beta" None None None (Some "applied") ]
          fresh)).
Proof.
  apply runs_keep_statuses_valid.
  - repeat constructor.
  - constructor.
Defined.

(** ** What a run leaves alone *)

(** A run that ends in an error the commands raise themselves or get from
    the date parser or the lookup ([typer.Exit] for a bad status or an
    unknown id, ValueError for a malformed deadline, OperationalError for a
    missing table, OverflowError for an id no key can be) has stored
    nothing: the rows are those before the run. *)
Theorem run_ending_in_error_stores_nothing (lower : string -> string)
    (int : string -> option Z) (c : Invocation) (s : State) (e : Exn) :
  (app lower int c s).2 = Raise e ->
  rows_of (app lower int c s).1 = rows_of s.
Proof.
  intros Hfail. rewrite app_effect.
  destruct c as [| title company link deadline notes status | status | i st
                 | i | i | fn | kw]; cbn [app effect] in *.
  - done.
  - destruct (cli._parse_date int (typer.Option "" deadline)) as [d|e'] eqn:E;
      [| done].
    by rewrite (add_parsed int s title company link deadline notes status d E)
      in Hfail.
  - by rewrite list_run in Hfail.
  - rewrite update_run in Hfail. unfold rows_of.
    destruct (py.mem st cli.valid); [| done].
    destruct (disk s) as [rows|]; [| done].
    change (default [] (Some rows)) with rows.
    destruct (List.find _ rows) eqn:Hj; [done |].
    by rewrite (with_status_absent i st rows Hj).
  - rewrite remove_run in Hfail. unfold rows_of.
    destruct (disk s) as [rows|]; [| done].
    change (default [] (Some rows)) with rows.
    destruct (List.find _ rows) eqn:Hj; [done |].
    by rewrite (without_absent i rows Hj).
  - done.
  - rewrite export_run in Hfail. by destruct (rows_of s).
  - by rewrite search_run in Hfail.
Qed.

Lemma run_ending_in_error_stores_nothing_witness :
  rows_of (app ascii_py.lower ascii_py.int
             (Add "Frontend" "Beta" None (Some "2025-02-30") None None)
             (stored [job1; job2])).1 = [job1; job2] /\
  rows_of (app ascii_py.lower ascii_py.int (Remove 7) (stored [job1; job2])).1
  = [job1; job2] /\
  rows_of (app ascii_py.lower ascii_py.int (Update (2 ^ 63) "offer")
             (stored [job1; job2])).1
  = [job1; job2].
Proof.
  split; [| split].
  - apply (run_ending_in_error_stores_nothing ascii_py.lower ascii_py.int
             (Add "Frontend" "Beta" None (Some "2025-02-30") None None)
             (stored [job1; job2]) ValueError).
    reflexivity.
  - apply (run_ending_in_error_stores_nothing ascii_py.lower ascii_py.int
             (Remove 7) (stored [job1; job2]) (Exit 1)).
    reflexivity.
  - apply (run_ending_in_error_stores_nothing ascii_py.lower ascii_py.int
             (Update (2 ^ 63) "offer") (stored [job1; job2]) OverflowError).
    reflexivity.
Defined.

(** [init], [list], [detail] and [search] only read the table: the rows
    after the run are the rows before, in the same order, whatever the run
    printed and however it ended. *)
Theorem reading_runs_keep_rows (lower : string -> string)
    (int : string -> option Z) (c : Invocation) (s : State) :
  reads_only c -> rows_of (app lower int c s).1 = rows_of s.
Proof.
  intros Hc. rewrite app_effect. by destruct c.
Qed.

Lemma reading_runs_keep_rows_witness :
  rows_of (app ascii_py.lower ascii_py.int (Search "acme") (stored [job1; job2])).1
  = [job1; job2] /\
  rows_of (app ascii_py.lower ascii_py.int (Detail 2) (stored [job1; job2])).1
  = [job1; job2].
Proof.
  split.
  - by apply (reading_runs_keep_rows ascii_py.lower ascii_py.int (Search "acme")
                (stored [job1; job2])).
  - by apply (reading_runs_keep_rows ascii_py.lower ascii_py.int (Detail 2)
                (stored [job1; job2])).
Defined.

(** ** The first run and the table *)

(** [init], [add], [list] and [search] call [init_db] before anything
    else: after the run, however it ended, the table exists; after [init],
    [list] and [search] it holds the rows it held before (none on a first
    run), after [add] those rows and at most the new one. *)
Theorem init_add_list_search_create_table (lower : string -> string)
    (int : string -> option Z) (s : State) (title company : string)
    (link deadline notes status filter : option string) (keyword : string) :
  disk (cli.init s).1 = Some (rows_of s) /\
  disk (cli.list filter s).1 = Some (rows_of s) /\
  disk (cli.search lower keyword s).1 = Some (rows_of s) /\
  exists rows',
    disk (cli.add int title company link deadline notes status s).1 = Some rows'
    /\ (rows' = rows_of s \/ exists j, rows' = rows_of s ++ [j]).
Proof.
  rewrite list_run, search_run.
  split; [reflexivity |]. split; [reflexivity |]. split; [reflexivity |].
  destruct (cli._parse_date int (typer.Option "" deadline)) as [d|e] eqn:E.
  - rewrite (add_parsed int s title company link deadline notes status d E).
    eexists. split; [reflexivity |]. right. by eexists.
  - rewrite (add_malformed int s title company link deadline notes status e E).
    eexists. split; [reflexivity |]. by left.
Qed.

(** Once the table exists (here: after [init]), [detail], [remove] and
    [update] with a valid status answer an unknown id that is a 64-bit
    integer with NotFound and status 1 instead of raising. *)
Theorem init_then_lookup_reports_not_found (s : State) (i : Z) (status : string) :
  (forall j, j ∈ rows_of s -> Job.id j <> i) -> models.int64 i = true ->
  status ∈ cli.valid ->
  fails_with NotFound (cli.detail i) (cli.init s).1 /\
  fails_with NotFound (cli.remove i) (cli.init s).1 /\
  fails_with NotFound (cli.update i status) (cli.init s).1.
Proof.
  intros Hno Hi Hst.
  assert (Hd : disk (cli.init s).1 = Some (rows_of s)) by reflexivity.
  split; [| split].
  - eexists _, _, _. split; [apply (detail_absent _ _ i Hd Hno Hi) |].
    cbn. repeat split; try done. by right.
  - eexists _, _, _. split; [apply (remove_absent _ _ i Hd Hno Hi) |].
    cbn. repeat split; try done. by left.
  - eexists _, _, _. split; [apply (update_absent _ _ i status Hst Hd Hno Hi) |].
    cbn. repeat split; try done. by left.
Qed.

Lemma init_then_lookup_reports_not_found_witness :
  fails_with NotFound (cli.detail 1) (cli.init fresh).1 /\
  fails_with NotFound (cli.remove 1) (cli.init fresh).1 /\
  fails_with NotFound (cli.update 1 "offer") (cli.init fresh).1.
Proof.
  apply (init_then_lookup_reports_not_found fresh 1 "offer").
  - intros j Hj. by apply elem_of_nil in Hj.
  - reflexivity.
  - by apply mem_true.
Defined.

(** ** How the commands compose *)



Lemma with_status_twice (i : Z) (st1 st2 : string) (rows : list Job.t) :
  with_status i st2 (with_status i st1 rows) = with_status i st2 rows.
Proof.
  unfold with_status. rewrite <- list_fmap_compose.
  apply list_fmap_ext. intros k r _. cbn.
  destruct (Z.eqb_spec (Job.id r) i) as [Heq | Hne].
  - cbn [Job.set_status Job.id]. destruct (Z.eqb_spec (Job.id r) i); done.
  - by destruct (Z.eqb_spec (Job.id r) i).
Qed.

(** Without a deadline (the option left out or empty) [add] always
    stores its row: from every state the table after the run is the old
    rows followed by one new row with the given title and company and no
    deadline, and the key of the new row is larger than every key stored
    before. *)
Theorem add_without_deadline_stores_row (int : string -> option Z) (s : State)
    (title company : string) (link deadline notes status : option string) :
  deadline = None \/ deadline = Some "" ->
  exists j,
    disk (cli.add int title company link deadline notes status s).1
    = Some (rows_of s ++ [j]) /\
    Job.title j = title /\ Job.company j = company /\ Job.deadline j = None /\
    forall r, r ∈ rows_of s -> (Job.id r < Job.id j)%Z.
Proof.
  intros Hd. pose proof (parse_no_deadline int deadline Hd) as Hp.
  rewrite (add_parsed int s title company link deadline notes status None Hp).
  eexists. cbn. repeat split; try reflexivity. intros r Hr. by apply next_id_gt.
Qed.

Lemma add_without_deadline_stores_row_witness :
  exists j,
    disk (cli.add ascii_py.int "Frontend" "Beta" None (Some "") None None
            (stored [job1])).1
    = Some (rows_of (stored [job1]) ++ [j]) /\
    Job.deadline j = None /\
    forall r, r ∈ rows_of (stored [job1]) -> (Job.id r < Job.id j)%Z.
Proof.
  destruct (add_without_deadline_stores_row ascii_py.int (stored [job1])
              "Frontend" "Beta" None (Some "") None None (or_intror eq_refl))
    as (j & Hdisk & _ & _ & Hdl & Hkey).
  exists j. repeat split; assumption.
Defined.





(** Of two updates of the same job the later one decides: the rows are
    those of the later update alone, whatever the earlier one did. *)
Theorem later_update_wins (s : State) (i : Z) (st1 st2 : string) :
  st2 ∈ cli.valid ->
  rows_of (cli.update i st2 (cli.update i st1 s).1).1
  = rows_of (cli.update i st2 s).1.
Proof.
  intros Hst. apply mem_true in Hst.
  pose proof (app_effect id (fun _ => None) (Update i st2)) as E2.
  pose proof (app_effect id (fun _ => None) (Update i st1) s) as E1.
  cbn [app effect] in E1, E2. rewrite !E2, E1, Hst.
  destruct (py.mem st1 cli.valid); [apply with_status_twice | reflexivity].
Qed.

Lemma later_update_wins_witness :
  rows_of (cli.update 2 "offer" (cli.update 2 "rejected" (stored [job1; job2])).1).1
  = rows_of (cli.update 2 "offer" (stored [job1; job2])).1.
Proof.
  apply (later_update_wins (stored [job1; job2]) 2 "rejected" "offer").
  by apply mem_true.
Defined.

(** With distinct keys, [remove] of a stored job takes exactly that row out
    of the table: the rows before it and the rows after it stay, in their
    order. *)
Theorem remove_takes_one_row (s : State) (rows : list Job.t) (j : Job.t) :
  disk s = Some rows -> NoDup (Job.id <$> rows) -> j ∈ rows ->
  exists s' before after,
    succeeds (cli.remove (Job.id j)) s s' /\
    rows = before ++ j :: after /\ disk s' = Some (before ++ after) /\
    length rows = S (length (before ++ after)).
Proof.
  intros Hd Hnd Hj.
  destruct (find_id_present rows j Hj) as (j' & Hfind & _ & _).
  destruct (list_elem_of_split rows j Hj) as (before & after & ->).
  eexists _, before, after.
  split; [apply (remove_present s _ (Job.id j) j' Hd Hfind) |].
  split; [reflexivity |].
  rewrite fmap_app, fmap_cons in Hnd.
  apply NoDup_app in Hnd as (_ & Hb & Ha). apply NoDup_cons in Ha as [Ha _].
  assert (Hkeep : forall l,
            (forall r, r ∈ l -> Job.id r <> Job.id j) ->
            List.filter (fun r => negb (Job.id r =? Job.id j)%Z) l = l).
  { intros l Hl. apply forallb_filter_id, forallb_forall. intros r Hr.
    apply list_elem_of_In in Hr. specialize (Hl r Hr).
    by destruct (Z.eqb_spec (Job.id r) (Job.id j)). }
  split.
  - cbn [disk]. f_equal. rewrite List.filter_app. cbn [List.filter].
    rewrite Z.eqb_refl. cbn [negb]. rewrite !Hkeep; [reflexivity | |].
    + intros r Hr Heq. apply Ha. rewrite <- Heq. by apply list_elem_of_fmap_2.
    + intros r Hr Heq. apply (Hb (Job.id j)); [| by left].
      rewrite <- Heq. by apply list_elem_of_fmap_2.
  - rewrite !length_app. cbn [length]. lia.
Qed.

Lemma remove_takes_one_row_witness :
  exists s' before after,
    succeeds (cli.remove (Job.id job2)) (stored [job1; job2; job3]) s' /\
    [job1; job2; job3] = before ++ job2 :: after /\
    disk s' = Some (before ++ after) /\
    length [job1; job2; job3] = S (length (before ++ after)).
Proof.
  apply (remove_takes_one_row (stored [job1; job2; job3]) [job1; job2; job3] job2).
  - reflexivity.
  - compute_done.
  - right. left.
Defined.

(** ** Filters and keywords that match nothing or the same *)

(** [list] does not check its filter: for a status that no stored row has,
    one of the five or not, it prints the table with no rows and returns. *)
Theorem list_unmatched_status_prints_empty_table (s : State) (status : string) :
  status <> "" -> (forall r, r ∈ rows_of s -> Job.status r <> status) ->
  cli.list (Some status) s
  = (MkState (Some (rows_of s)) (files s)
       (console s ++ [rich.Grid (listing "Jobs" [])]) [],
     Ret tt).
Proof.
  intros Hst Hno. rewrite list_run. cbn.
  rewrite (truthy_nonempty status Hst).
  assert (Hnone : List.filter (fun r => String.eqb (Job.status r) status)
                    (default [] (disk s)) = []).
  { apply (restricted_functional (fun r => Job.status r = status)
             (default [] (disk s))).
    - apply restricted_filter. intros r. apply String.eqb_eq.
    - clear Hst. unfold rows_of in Hno.
      induction (default [] (disk s)) as [|r rows IH]; [constructor |].
      apply restricted_drop; [apply Hno; by left |].
      apply IH. intros r' Hr'. apply Hno. by right. }
  by rewrite Hnone.
Qed.

Lemma list_unmatched_status_prints_empty_table_witness :
  cli.list (Some "done") (stored [job1; job2])
  = (MkState (Some [job1; job2]) ∅ [rich.Grid (listing "Jobs" [])] [], Ret tt).
Proof.
  apply (list_unmatched_status_prints_empty_table (stored [job1; job2]) "done").
  - discriminate.
  - intros r Hr.
    repeat (apply elem_of_cons in Hr as [-> | Hr]; [discriminate |]).
    by apply elem_of_nil in Hr.
Defined.

(** [search] sees the keyword only through [lower]: two keywords with the
    same lowering select the same rows; only the title of the report names
    the keyword as typed. *)
Theorem search_ignores_case (lower : string -> string) (s : State)
    (k1 k2 : string) :
  lower k1 = lower k2 ->
  exists results,
    cli.search lower k1 s
    = (MkState (Some (rows_of s)) (files s)
         (console s ++ [search_report k1 results]) [], Ret tt) /\
    cli.search lower k2 s
    = (MkState (Some (rows_of s)) (files s)
         (console s ++ [search_report k2 results]) [], Ret tt) /\
    restricted (matches lower k1) (rows_of s) results.
Proof.
  intros Hk. eexists. rewrite !search_run, <- Hk.
  split; [reflexivity |]. split; [reflexivity |].
  apply restricted_filter. intros r. apply match_spec.
Qed.

Lemma search_ignores_case_witness :
  exists results,
    cli.search ascii_py.lower "ACME" (stored [job1; job2])
    = (MkState (Some [job1; job2]) ∅ [search_report "ACME" results] [], Ret tt) /\
    cli.search ascii_py.lower "acme" (stored [job1; job2])
    = (MkState (Some [job1; job2]) ∅ [search_report "acme" results] [], Ret tt) /\
    restricted (matches ascii_py.lower "ACME") [job1; job2] results.
Proof.
  apply (search_ignores_case ascii_py.lower (stored [job1; job2]) "ACME" "acme").
  reflexivity.
Defined.

(** ** update before any storage *)

(** [update] refuses a status outside the five before it touches the
    store: from every state, a first run included, it prints the line for
    an invalid status and ends with status 1; the table is neither read nor
    created, and the files are as they were. *)
Theorem update_invalid_status_skips_storage (s : State) (i : Z) (status : string) :
  status ∉ cli.valid ->
  fails_with InvalidInput (cli.update i status) s /\
  disk (cli.update i status s).1 = disk s /\
  (cli.update i status s).2 = Raise (Exit 1).
Proof.
  intros Hst. rewrite (update_invalid s i status Hst). cbn.
  split; [| by split].
  eexists _, _, _. split; [apply (update_invalid s i status Hst) |].
  cbn. repeat split; done.
Qed.

Lemma update_invalid_status_skips_storage_witness :
  fails_with InvalidInput (cli.update 1 "done") fresh /\
  disk (cli.update 1 "done" fresh).1 = None /\
  (cli.update 1 "done" fresh).2 = Raise (Exit 1).
Proof.
  apply (update_invalid_status_skips_storage fresh 1 "done").
  by apply mem_false.
Defined.
